(** * jetool: the request orchestrator (src/python/agent.py) and its HTTP
      adapter (src/api/analyze.py), embedded and verified.

    Modelling choices, stated once:
    - A Python [str] is a sequence of code points: [pystr := list N]; the
      text of a remote reply or of an HTTP body is such a string ([text]).
    - The interpreter's Unicode database is not part of the repository: its
      ASCII part is written out, and outside ASCII the decimal digits (what
      [\d] matches and [int] reads) and the equality of letters under
      [re.IGNORECASE] are a parameter, the record [unicode].
    - The outside world (the hosted endpoints, the file system, the process
      environment, the interpreter's message texts, its recursion budget,
      its bound on integer conversions and the encoding of standard output)
      is a record [env]; effectful code runs in a state-and-exception monad
      whose state is the chronological list of outside events.
    - A chat completion that succeeds carries a text; the client library's
      other outcomes are exceptions.  A completion without text (a content
      of None) is not represented: the properties of whole runs are about
      runs whose completions carry text or fail.
    - The fixed wording of the prompts is not reproduced: a request records
      the model name, the values interpolated in the prompt and the sampling
      parameters.
    - [json.dumps] of a value is taken to succeed; what can fail is the
      encoding of its text (UTF-8 in the handler, the encoding of standard
      output on the command line). *)

From Stdlib Require Import List Ascii String ZArith NArith Bool Lia.
Import ListNotations.

#[local] Set Warnings "-register-all".

Local Open Scope list_scope.

(** ** Strings *)

Definition text := list N.
Definition pystr := list N.

(** The code point of an ASCII character. *)
Definition chr (a : ascii) : N := N_of_ascii a.

(** Equality of two code points. *)
Definition eqc (x c : N) : bool := N.eqb x c.

(** The code point [c] is the ASCII character [a]. *)
Definition isc (a : ascii) (c : N) : bool := eqc (chr a) c.

(** A literal of the source, as [text]. *)
Definition lit (s : string) : text := map N_of_ascii (list_ascii_of_string s).

(** A [text] seen as a Python string. *)
Definition up (s : text) : pystr := s.

(** A literal of the source, as a Python string. *)
Definition u (s : string) : pystr := up (lit s).

(** Literals that hold double quotes are written with apostrophes and
    converted: [dq "{'a': 1}"] is the text [{"a": 1}]. *)
Definition dquote : N := 34.
Definition dq (s : string) : text :=
  map (fun c => if isc "'" c then dquote else c) (lit s).

Definition pystr_eqb (a b : pystr) : bool :=
  if list_eq_dec N.eq_dec a b then true else false.

(** [str.isspace] on one code point (the Unicode white-space set). *)
Definition py_isspace (c : N) : bool :=
  ((9 <=? c) && (c <=? 13) || (28 <=? c) && (c <=? 32) || (c =? 133)
   || (c =? 160) || (c =? 5760) || (8192 <=? c) && (c <=? 8202)
   || (c =? 8232) || (c =? 8233) || (c =? 8239) || (c =? 8287)
   || (c =? 12288))%N.

Fixpoint lstrip (s : pystr) : pystr :=
  match s with
  | c :: r => if py_isspace c then lstrip r else s
  | [] => []
  end.

(** [s.strip()] *)
Definition strip (s : pystr) : pystr := rev (lstrip (rev (lstrip s))).

(** [sep.join(parts)] *)
Fixpoint join (sep : pystr) (parts : list pystr) : pystr :=
  match parts with
  | [] => []
  | [p] => p
  | p :: rest => p ++ sep ++ join sep rest
  end.

(** [needle in hay] for two strings. *)
Fixpoint prefixb (a b : pystr) : bool :=
  match a, b with
  | [], _ => true
  | x :: a', y :: b' => N.eqb x y && prefixb a' b'
  | _ :: _, [] => false
  end.

Fixpoint infixb (needle hay : pystr) : bool :=
  prefixb needle hay ||
  match hay with
  | [] => false
  | _ :: hay' => infixb needle hay'
  end.

(** ** The interpreter's Unicode database

    Inside ASCII the database is written out: the digits 0 to 9 and the
    letter case of A to Z.  Outside ASCII it is a parameter:
    [decimal_value c] is the value of [c] when it is a decimal digit
    (category Nd), and [same_letter x c] tells whether the text character
    [c] matches the pattern character [x] under re.IGNORECASE. *)

Record unicode := Unicode {
  decimal_value : N -> option N;
  same_letter : N -> N -> bool
}.

Definition is_ascii_digit (c : N) : bool := ((48 <=? c) && (c <=? 57))%N.

Definition ascii_digit (c : N) : option N :=
  if is_ascii_digit c then Some (c - 48)%N else None.

Definition ascii_lower (c : N) : N :=
  if ((65 <=? c) && (c <=? 90))%N then (c + 32)%N else c.

(** The value of a decimal digit: these are the characters [\d] matches and
    [int] reads. *)
Definition decimal_of (ud : unicode) (c : N) : option N :=
  if (c <? 128)%N then ascii_digit c else decimal_value ud c.

(** The text character [c] matches the pattern character [x] when case is
    ignored. *)
Definition letter_eq (ud : unicode) (x c : N) : bool :=
  if (c <? 128)%N then N.eqb (ascii_lower x) (ascii_lower c)
  else same_letter ud x c.

(** ** The regular expressions of agent.py

    The four patterns of the source are sequences of one-character atoms,
    each with a quantifier, at most one of them being capture group 1.  The
    matcher is the backtracking one of [re]: greedy quantifiers, leftmost
    start position. *)

Module Re.

Inductive cls :=
| Any                 (* [.] under re.DOTALL *)
| Digit               (* [\d] *)
| NotDigit            (* [[^\d]] *)
| Chr (c : N)         (* a literal character *)
| ChrI (c : N).       (* a literal character under re.IGNORECASE *)

Inductive quant := One | Star | Plus.

Record atom := Atom { a_cls : cls; a_quant : quant; a_group : bool }.

Definition regex := list atom.

Definition is_digit (ud : unicode) (c : N) : bool :=
  match decimal_of ud c with
  | Some _ => true
  | None => false
  end.

Definition in_cls (ud : unicode) (k : cls) (c : N) : bool :=
  match k with
  | Any => true
  | Digit => is_digit ud c
  | NotDigit => negb (is_digit ud c)
  | Chr x => eqc x c
  | ChrI x => letter_eq ud x c
  end.

(** A match: [group()] and [group(1)]. *)
Record mres := MRes { m_whole : text; m_group : text }.

Definition consume (g : bool) (c : N) (r : mres) : mres :=
  MRes (c :: m_whole r) (if g then c :: m_group r else m_group r).

(** A greedy repetition of one character class followed by the rest of the
    pattern [k]: take as many characters as possible, give back one at a
    time until the rest matches. *)
Fixpoint star (ok : N -> bool) (g : bool) (k : text -> option mres)
  (s : text) : option mres :=
  match s with
  | c :: s' =>
      if ok c then
        match star ok g k s' with
        | Some r => Some (consume g c r)
        | None => k s
        end
      else k s
  | [] => k []
  end.

(** One character of the class, then [k]. *)
Definition one (ok : N -> bool) (g : bool) (k : text -> option mres)
  (s : text) : option mres :=
  match s with
  | c :: s' => if ok c then option_map (consume g c) (k s') else None
  | [] => None
  end.

(** Match the pattern at the start of the text. *)
Fixpoint match_here (ud : unicode) (p : regex) {struct p}
  : text -> option mres :=
  match p with
  | [] => fun _ => Some (MRes [] [])
  | a :: p' =>
      let ok := in_cls ud (a_cls a) in
      let g := a_group a in
      match a_quant a with
      | One => one ok g (match_here ud p')
      | Star => star ok g (match_here ud p')
      | Plus => one ok g (star ok g (match_here ud p'))
      end
  end.

(** [re.search]: the match at the leftmost position that has one. *)
Fixpoint search (ud : unicode) (p : regex) (s : text) : option mres :=
  match match_here ud p s with
  | Some r => Some r
  | None =>
      match s with
      | [] => None
      | _ :: s' => search ud p s'
      end
  end.

(** [r'\{.*\}'] with re.DOTALL *)
Definition json_pat : regex :=
  [Atom (Chr (chr "{")) One false; Atom Any Star false;
   Atom (Chr (chr "}")) One false].

(** [r'(\d+)'] *)
Definition int_pat : regex := [Atom Digit Plus true].

(** [r'(\d+)%'] *)
Definition percent_pat : regex :=
  [Atom Digit Plus true; Atom (Chr (chr "%")) One false].

(** [r'probability[^\d]*(\d+)'] with re.IGNORECASE *)
Definition probability_pat : regex :=
  map (fun c => Atom (ChrI c) One false) (lit "probability")
  ++ [Atom NotDigit Star false; Atom Digit Plus true].

End Re.

(** ** [int(s)]

    CPython refuses to convert a text of more than [max_str_digits] digits
    (4300 unless changed; 0 switches the bound off; the bound is only looked
    at above 640 digits) and raises ValueError; [None] stands for that
    exception, also raised on the empty text and on a character that is not
    a decimal digit. *)

Definition too_long (max_str_digits n : nat) : bool :=
  (640 <? n)%nat && (0 <? max_str_digits)%nat && (max_str_digits <? n)%nat.

Definition int_step (value : N -> option N) (acc : option Z) (c : N)
  : option Z :=
  match acc, value c with
  | Some a, Some d => Some (10 * a + Z.of_N d)%Z
  | _, _ => None
  end.

Definition digits_value (value : N -> option N) (s : text) : option Z :=
  fold_left (int_step value) s (Some 0%Z).

Definition py_int (ud : unicode) (max_str_digits : nat) (s : text)
  : option Z :=
  match s with
  | [] => None
  | _ :: _ =>
      if too_long max_str_digits (List.length s) then None
      else digits_value (decimal_of ud) s
  end.

(** ** JSON values and [json.loads]

    The values are the Python objects the decoder builds.  A float is kept
    as the decimal number its literal denotes, [mant * 10 ^ expo]; where the
    code looks at a float (its truth value) the rounding to binary64 is taken
    into account.  A dict is an association list in insertion order. *)

Module Json.

Record decimal := Dec { mant : Z; expo : Z }.

Inductive json :=
| JNull
| JBool (b : bool)
| JInt (z : Z)
| JFloat (d : decimal)
| JNaN
| JInf (negative : bool)
| JStr (s : pystr)
| JArr (items : list json)
| JObj (members : list (pystr * json)).

(** [d[key] = v]: replace in place, or append. *)
Fixpoint dict_set (d : list (pystr * json)) (key : pystr) (v : json)
  : list (pystr * json) :=
  match d with
  | [] => [(key, v)]
  | (k, x) :: d' =>
      if pystr_eqb k key then (k, v) :: d' else (k, x) :: dict_set d' key v
  end.

Fixpoint dict_get (d : list (pystr * json)) (key : pystr) : option json :=
  match d with
  | [] => None
  | (k, x) :: d' => if pystr_eqb k key then Some x else dict_get d' key
  end.

(** The field of a value that is a dict. *)
Definition field (v : json) (key : string) : option json :=
  match v with
  | JObj d => dict_get d (u key)
  | _ => None
  end.

(** The float a literal denotes is zero: the literal is zero, or so small
    that it rounds to zero (at most 2 ^ -1075 in absolute value, half the
    smallest positive binary64). *)
Definition rounds_to_zero (d : decimal) : bool :=
  if (0 <=? expo d)%Z then (mant d =? 0)%Z
  else (Z.abs (mant d) * 2 ^ 1075 <=? 10 ^ (- expo d))%Z.

(** Truth value of an object ([if x:], [not x]). *)
Definition truthy (v : json) : bool :=
  match v with
  | JNull => false
  | JBool b => b
  | JInt z => negb (z =? 0)%Z
  | JFloat d => negb (rounds_to_zero d)
  | JNaN => true
  | JInf _ => true
  | JStr s => match s with [] => false | _ => true end
  | JArr l => match l with [] => false | _ => true end
  | JObj d => match d with [] => false | _ => true end
  end.

(** All the characters of all the strings of a value, keys included: what
    [json.dumps(v, ensure_ascii=False)] writes outside ASCII. *)
Fixpoint json_chars (v : json) : list N :=
  match v with
  | JStr s => s
  | JArr l => flat_map json_chars l
  | JObj d => flat_map (fun kv => fst kv ++ json_chars (snd kv)) d
  | _ => []
  end.

(** The ways the decoder fails: [json.JSONDecodeError]; the ValueError of an
    integer literal with too many digits; and [RecursionError] when the
    nesting exceeds the interpreter's budget. *)
Inductive perr := DecodeError | ValueError | RecursionError.

Inductive res (A : Type) :=
| Ok (a : A)
| Err (e : perr).
Arguments Ok {A} a.
Arguments Err {A} e.

Definition rbind {A B} (r : res A) (f : A -> res B) : res B :=
  match r with
  | Ok a => f a
  | Err e => Err e
  end.

Notation "'let*' x ':=' c 'in' k" := (rbind c (fun x => k))
  (at level 10, x pattern, c at level 100, k at level 200).

Definition is_ws (c : N) : bool :=
  isc " " c || isc "009" c || isc "010" c || isc "013" c.

Fixpoint skip_ws (s : text) : text :=
  match s with
  | c :: r => if is_ws c then skip_ws r else s
  | [] => []
  end.

Definition hex_val (c : N) : option N :=
  if ((48 <=? c) && (c <=? 57))%N then Some (c - 48)%N
  else if ((97 <=? c) && (c <=? 102))%N then Some (c - 87)%N
  else if ((65 <=? c) && (c <=? 70))%N then Some (c - 55)%N
  else None.

Definition hex4 (a b c d : N) : option N :=
  match hex_val a, hex_val b, hex_val c, hex_val d with
  | Some x, Some y, Some z, Some w => Some (((x * 16 + y) * 16 + z) * 16 + w)%N
  | _, _, _, _ => None
  end.

Definition is_high (n : N) : bool := ((55296 <=? n) && (n <=? 56319))%N.
Definition is_low (n : N) : bool := ((56320 <=? n) && (n <=? 57343))%N.
Definition join_surrogates (hi lo : N) : N :=
  (65536 + ((hi - 55296) * 1024 + (lo - 56320)))%N.

(** The character an escape letter stands for. *)
Definition unescape (c : N) : option N :=
  if eqc c dquote then Some 34%N
  else if isc "\" c then Some 92%N
  else if isc "/" c then Some 47%N
  else if isc "b" c then Some 8%N
  else if isc "f" c then Some 12%N
  else if isc "n" c then Some 10%N
  else if isc "r" c then Some 13%N
  else if isc "t" c then Some 9%N
  else None.

(** The string scanner (strict mode), entered after the opening quote;
    [acc] holds the decoded characters, last first. *)
Fixpoint scan_string (s : text) (acc : pystr) : res (pystr * text) :=
  match s with
  | [] => Err DecodeError
  | c :: r =>
      if eqc c dquote then Ok (rev acc, r)
      else if isc "\" c then
        match r with
        | [] => Err DecodeError
        | e :: r1 =>
            if isc "u" e then
              match r1 with
              | h1 :: h2 :: h3 :: h4 :: r2 =>
                  match hex4 h1 h2 h3 h4 with
                  | None => Err DecodeError
                  | Some hi =>
                      match r2 with
                      | b :: e2 :: k1 :: k2 :: k3 :: k4 :: r3 =>
                          if is_high hi && isc "\" b && isc "u" e2
                          then
                            match hex4 k1 k2 k3 k4 with
                            | None => Err DecodeError
                            | Some lo =>
                                if is_low lo
                                then scan_string r3 (join_surrogates hi lo :: acc)
                                else scan_string r2 (hi :: acc)
                            end
                          else scan_string r2 (hi :: acc)
                      | _ => scan_string r2 (hi :: acc)
                      end
                  end
              | _ => Err DecodeError
              end
            else
              match unescape e with
              | Some x => scan_string r1 (x :: acc)
              | None => Err DecodeError
              end
        end
      else if (c <=? 31)%N then Err DecodeError
      else scan_string r (c :: acc)
  end.

(** The longest prefix of ASCII digits, and what follows it. *)
Fixpoint span_digits (s : text) : text * text :=
  match s with
  | c :: r =>
      if is_ascii_digit c then let (ds, rest) := span_digits r in (c :: ds, rest)
      else ([], s)
  | [] => ([], [])
  end.

(** The number digits denote, when they are ASCII digits. *)
Definition nat_value (ds : text) : Z :=
  match digits_value ascii_digit ds with
  | Some z => z
  | None => 0%Z
  end.

(** The number scanner: an optional minus sign, then a single 0 or a run of
    digits that does not start with 0, then an optional fraction (a dot and
    at least one digit), then an optional exponent (e or E, an optional sign,
    at least one digit); each optional part is taken only when complete.  An
    integer is converted under the bound on digits. *)
Definition scan_number (max_str_digits : nat) (s : text)
  : res (json * text) :=
  let (neg, s1) :=
    match s with
    | c :: r => if isc "-" c then (true, r) else (false, s)
    | [] => (false, s)
    end in
  let* (ipart, s2) :=
    match s1 with
    | c :: r =>
        if isc "0" c then Ok ([c], r)
        else if is_ascii_digit c then Ok (span_digits s1)
        else Err DecodeError
    | [] => Err DecodeError
    end in
  let (fpart, s3) :=
    match s2 with
    | p :: d :: _ =>
        if isc "." p && is_ascii_digit d then span_digits (tl s2)
        else ([], s2)
    | _ => ([], s2)
    end in
  let (epart, s4) :=
    match s3 with
    | e :: r =>
        if isc "e" e || isc "E" e then
          let (eneg, r1) :=
            match r with
            | sg :: r' =>
                if isc "-" sg then (true, r')
                else if isc "+" sg then (false, r')
                else (false, r)
            | [] => (false, r)
            end in
          match span_digits r1 with
          | ([], _) => (None, s3)
          | (ds, rest) =>
              (Some (if eneg then - nat_value ds else nat_value ds)%Z, rest)
          end
        else (None, s3)
    | [] => (None, s3)
    end in
  let sign (z : Z) := if neg then (- z)%Z else z in
  match fpart, epart with
  | [], None =>
      if too_long max_str_digits (List.length ipart) then Err ValueError
      else Ok (JInt (sign (nat_value ipart)), s4)
  | _, _ =>
      let m := sign (nat_value (ipart ++ fpart)) in
      let x := match epart with Some x => x | None => 0%Z end in
      Ok (JFloat (Dec m (x - Z.of_nat (List.length fpart))), s4)
  end.

(** [s] starts with the literal [w]: what follows it. *)
Fixpoint strip_prefix (w s : text) : option text :=
  match w, s with
  | [], _ => Some s
  | x :: w', y :: s' => if eqc x y then strip_prefix w' s' else None
  | _ :: _, [] => None
  end.

(** The members of an object, entered at the first key; [fuel] bounds the
    number of members and is taken larger than the text. *)
Fixpoint parse_members (scan : text -> res (json * text)) (fuel : nat)
  (s : text) (acc : list (pystr * json)) : res (json * text) :=
  match fuel with
  | O => Err DecodeError
  | S n =>
      match s with
      | c :: r =>
          if eqc c dquote then
            let* (key, r1) := scan_string r [] in
            match skip_ws r1 with
            | c1 :: r2 =>
                if isc ":" c1 then
                  let* (v, r3) := scan (skip_ws r2) in
                  let acc' := dict_set acc key v in
                  match skip_ws r3 with
                  | c2 :: r4 =>
                      if isc "}" c2 then Ok (JObj acc', r4)
                      else if isc "," c2
                      then parse_members scan n (skip_ws r4) acc'
                      else Err DecodeError
                  | [] => Err DecodeError
                  end
                else Err DecodeError
            | [] => Err DecodeError
            end
          else Err DecodeError
      | [] => Err DecodeError
      end
  end.

(** An object, entered after its opening brace. *)
Definition parse_object (scan : text -> res (json * text)) (s : text)
  : res (json * text) :=
  match skip_ws s with
  | c :: r =>
      if isc "}" c then Ok (JObj [], r)
      else parse_members scan (S (List.length s)) (skip_ws s) []
  | [] => Err DecodeError
  end.

(** The items of an array, entered at the first item; [acc] last first. *)
Fixpoint parse_items (scan : text -> res (json * text)) (fuel : nat)
  (s : text) (acc : list json) : res (json * text) :=
  match fuel with
  | O => Err DecodeError
  | S n =>
      let* (v, r1) := scan s in
      match skip_ws r1 with
      | c :: r2 =>
          if isc "]" c then Ok (JArr (rev (v :: acc)), r2)
          else if isc "," c
          then parse_items scan n (skip_ws r2) (v :: acc)
          else Err DecodeError
      | [] => Err DecodeError
      end
  end.

(** An array, entered after its opening bracket. *)
Definition parse_array (scan : text -> res (json * text)) (s : text)
  : res (json * text) :=
  match skip_ws s with
  | c :: r =>
      if isc "]" c then Ok (JArr [], r)
      else parse_items scan (S (List.length s)) (skip_ws s) []
  | [] => Err DecodeError
  end.

Definition constant (w : string) (v : json) (s : text)
  (otherwise : res (json * text)) : res (json * text) :=
  match strip_prefix (lit w) s with
  | Some r => Ok (v, r)
  | None => otherwise
  end.

(** One JSON term at the start of the text; [depth] is the number of nested
    containers the interpreter still allows. *)
Fixpoint scan_once (max_str_digits : nat) (depth : nat) (s : text)
  {struct depth} : res (json * text) :=
  let number := scan_number max_str_digits s in
  match s with
  | [] => Err DecodeError
  | c :: r =>
      if eqc c dquote then
        let* (str, r') := scan_string r [] in Ok (JStr str, r')
      else if isc "{" c then
        match depth with
        | O => Err RecursionError
        | S d => parse_object (scan_once max_str_digits d) r
        end
      else if isc "[" c then
        match depth with
        | O => Err RecursionError
        | S d => parse_array (scan_once max_str_digits d) r
        end
      else if isc "n" c then constant "null" JNull s number
      else if isc "t" c then constant "true" (JBool true) s number
      else if isc "f" c then constant "false" (JBool false) s number
      else if isc "N" c then constant "NaN" JNaN s number
      else if isc "I" c then constant "Infinity" (JInf false) s number
      else if isc "-" c then constant "-Infinity" (JInf true) s number
      else number
  end.

(** [json.loads(s)]: one term, white space around it, nothing else. *)
Definition loads (max_str_digits : nat) (depth : nat) (s : text) : res json :=
  let* (v, r) := scan_once max_str_digits depth (skip_ws s) in
  match skip_ws r with
  | [] => Ok v
  | _ :: _ => Err DecodeError
  end.

End Json.

(** ** The outside world and the effect monad *)

Module World.
Import Json.

(** Exceptions.  [Raised msg] comes from the API client or the file system
    and [msg] is its [str(e)]; the others are raised by the interpreter. *)
Inductive exn :=
| Raised (msg : pystr)
| JSONDecodeError
| ValueError
| RecursionError
| TypeError
| AttributeError
| UnicodeEncodeError.

Inductive outcome (A : Type) :=
| Val (a : A)
| Exc (e : exn).
Arguments Val {A} a.
Arguments Exc {A} e.

(** What a chat-completion request carries besides fixed wording. *)
Inductive prompt :=
| SearchPrompt (query : pystr)
| ImagePrompt (person_name : pystr) (image_url : pystr)
| ScorePrompt (search_data : pystr) (image_analysis : option json).

Record request := Request {
  model : pystr;
  content : prompt;
  max_tokens : nat;
  temperature : option decimal
}.

Inductive event :=
| Chat (api_key : pystr) (r : request)   (* a call to a hosted model *)
| ReadFile (path : pystr).               (* a local file opened and read *)

Record env := Env {
  (** [client.chat.completions.create(...)] followed by
      [.choices[0].message.content]: the reply text, or an exception; it may
      depend on everything that happened before. *)
  remote : list event -> pystr -> request -> outcome text;
  (** base64 of the bytes of a file, or the exception of [open]/[read]. *)
  read_b64 : list event -> pystr -> outcome pystr;
  (** [os.getenv("OPENAI_API_KEY")] *)
  getenv_key : option pystr;
  (** nesting the interpreter allows the JSON decoder *)
  depth : nat;
  (** the interpreter's bound on the digits of an integer conversion *)
  max_str_digits : nat;
  (** the interpreter's Unicode database *)
  unicode_db : unicode;
  (** the characters outside ASCII that the encoding of standard output can
      write (the encoding is taken to extend ASCII) *)
  stdout_encodes : N -> bool;
  (** [str(e)] of an exception raised by the interpreter *)
  builtin_str : exn -> pystr;
  (** [format(v)] of a value that is not a [str]: its first character and
      the rest (the text of such a value is never empty) *)
  format_other : json -> N * pystr
}.

Definition str_exn (w : env) (e : exn) : pystr :=
  match e with
  | Raised msg => msg
  | _ => builtin_str w e
  end.

(** Computations: the events so far go in, the result or the exception and
    the events so far come out. *)
Definition M (A : Type) : Type := list event -> outcome A * list event.

Definition ret {A} (a : A) : M A := fun t => (Val a, t).

Definition raise {A} (e : exn) : M A := fun t => (Exc e, t).

Definition bind {A B} (m : M A) (f : A -> M B) : M B :=
  fun t =>
    match m t with
    | (Val a, t') => f a t'
    | (Exc e, t') => (Exc e, t')
    end.

(** [try: m  except Exception as e: h e] *)
Definition catch {A} (m : M A) (h : exn -> M A) : M A :=
  fun t =>
    match m t with
    | (Val a, t') => (Val a, t')
    | (Exc e, t') => h e t'
    end.

Definition lift {A} (o : outcome A) : M A := fun t => (o, t).

Definition chat (w : env) (key : pystr) (r : request) : M text :=
  fun t => (remote w t key r, t ++ [Chat key r]).

Definition read_file (w : env) (path : pystr) : M pystr :=
  fun t => (read_b64 w t path, t ++ [ReadFile path]).

End World.

Notation "x <- c ;; k" := (World.bind c (fun x => k))
  (at level 61, c at next level, right associativity).

(** ** src/python/agent.py *)

Module Agent.
Import Json World.

(** [JewishIdentityAnalyzerAgent.__init__] *)
Record agent := Build_agent {
  client_key : pystr;
  search_model : pystr;
  vision_model : pystr
}.

Definition new_agent (api_key : pystr) : agent :=
  Build_agent api_key (u "gpt-4o-mini-search-preview") (u "gpt-4o-mini").

(** Truth value of an optional string argument ([None] and [""] are false). *)
Definition supplied (o : option pystr) : bool :=
  match o with
  | Some (_ :: _) => true
  | _ => false
  end.

Definition get (o : option pystr) : pystr :=
  match o with
  | Some s => s
  | None => []
  end.

Definition web_search (w : env) (self : agent) (query : pystr)
  (max_tokens : nat) : M pystr :=
  catch
    (c <- chat w (client_key self)
            (Request (search_model self) (SearchPrompt query) max_tokens None) ;;
     ret (up c))
    (fun e => ret (u "Error during web search: " ++ str_exn w e)).

Definition encode_image (w : env) (image_path : pystr) : M pystr :=
  read_file w image_path.

(** The dict analyze_ethnic_image builds when it does not return a decoded
    object (lines 120-124 and 126-130). *)
Definition image_dict (score : Z) (indicator : string) (result : text) : json :=
  JObj [(u "punteggio_immagine", JInt score);
        (u "indicatori_visivi", JArr [JStr (u indicator)]);
        (u "spiegazione", JStr (up (firstn 200 result)))].

(** Lines 110-130: what analyze_ethnic_image makes of the reply text.  The
    inner handler takes json.JSONDecodeError and ValueError. *)
Definition image_reply (w : env) (result : text) : outcome json :=
  let caught := Val (image_dict 50 "analysis error" result) in
  match Re.search (unicode_db w) Re.json_pat result with
  | Some json_match =>
      match loads (max_str_digits w) (depth w) (Re.m_whole json_match) with
      | Ok v => Val v
      | Err DecodeError => caught
      | Err Json.ValueError => caught
      | Err Json.RecursionError => Exc World.RecursionError
      end
  | None =>
      match Re.search (unicode_db w) Re.int_pat result with
      | Some score_match =>
          match py_int (unicode_db w) (max_str_digits w)
                  (Re.m_group score_match) with
          | Some score => Val (image_dict score "unstructured analysis" result)
          | None => caught
          end
      | None => Val (image_dict 50 "unstructured analysis" result)
      end
  end.

Definition errore (w : env) (what : string) (e : exn) : json :=
  JObj [(u "errore", JStr (u what ++ str_exn w e))].

Definition vision_request (self : agent) (person_name url : pystr) : request :=
  Request (vision_model self) (ImagePrompt person_name url) 500
          (Some (Dec 1 (-1))).

Definition analyze_ethnic_image (w : env) (self : agent)
  (image_path image_url image_base64 : option pystr) (person_name : pystr)
  : M json :=
  catch
    (let send (url : pystr) : M json :=
       result <- chat w (client_key self) (vision_request self person_name url) ;;
       lift (image_reply w result) in
     if supplied image_path then
       base64_image <- encode_image w (get image_path) ;;
       send (u "data:image/jpeg;base64," ++ base64_image)
     else if supplied image_base64 then
       send (u "data:image/jpeg;base64," ++ get image_base64)
     else if supplied image_url then
       send (get image_url)
     else ret (JObj [(u "errore", JStr (u "No image provided"))]))
    (fun e => ret (errore w "Error in image analysis: " e)).

(** [key in v] *)
Definition py_in (key : pystr) (v : json) : outcome bool :=
  match v with
  | JObj d => Val (match dict_get d key with Some _ => true | None => false end)
  | JArr l =>
      Val (existsb (fun x => match x with
                             | JStr s => pystr_eqb s key
                             | _ => false
                             end) l)
  | JStr s => Val (infixb key s)
  | _ => Exc TypeError
  end.

(** The probability read off the raw reply: the first [NN%], else the first
    number after the word probability, else 50 (written out three times in
    the source, lines 194-199, 210-215 and 226-231); [None] is the
    ValueError of [int]. *)
Definition recover_probability (w : env) (result : text) : option Z :=
  match Re.search (unicode_db w) Re.percent_pat result with
  | Some prob_match =>
      py_int (unicode_db w) (max_str_digits w) (Re.m_group prob_match)
  | None =>
      match Re.search (unicode_db w) Re.probability_pat result with
      | Some prob_match =>
          py_int (unicode_db w) (max_str_digits w) (Re.m_group prob_match)
      | None => Some 50%Z
      end
  end.

(** The dict of a fallback of calculate_jewish_probability. *)
Definition fallback (probability : Z) (result : text) (indicator : string)
  (confidenza : decimal) : json :=
  JObj [(u "probabilita_percentuale", JInt probability);
        (u "categoria",
         JStr (if (40 <? probability)%Z then u "moderata" else u "bassa"));
        (u "indicatori_principali", JArr [JStr (u indicator)]);
        (u "spiegazione", JStr (up (firstn 200 result)));
        (u "confidenza", JFloat confidenza)].

(** Lines 183-239: what calculate_jewish_probability makes of the reply.
    The inner handler takes json.JSONDecodeError, ValueError and
    AttributeError, and recovers the probability once more; what is raised
    there goes to the outer handler. *)
Definition score_reply (w : env) (result : text) : outcome json :=
  let caught :=
    match recover_probability w result with
    | Some probability =>
        Val (fallback probability result "analysis error fallback" (Dec 3 (-1)))
    | None => Exc World.ValueError
    end in
  match Re.search (unicode_db w) Re.json_pat result with
  | Some json_match =>
      match loads (max_str_digits w) (depth w) (Re.m_whole json_match) with
      | Ok parsed_json =>
          match py_in (u "probabilita_percentuale") parsed_json with
          | Val true => Val parsed_json
          | Val false =>
              match recover_probability w result with
              | Some probability =>
                  Val (fallback probability result "fallback analysis"
                         (Dec 5 (-1)))
              | None => caught
              end
          | Exc e => Exc e
          end
      | Err DecodeError => caught
      | Err Json.ValueError => caught
      | Err Json.RecursionError => Exc World.RecursionError
      end
  | None =>
      match recover_probability w result with
      | Some probability =>
          Val (fallback probability result "unstructured analysis" (Dec 5 (-1)))
      | None => caught
      end
  end.

Definition score_request (self : agent) (search_data : pystr)
  (image_analysis : option json) : request :=
  Request (vision_model self)
          (ScorePrompt search_data
             match image_analysis with
             | Some v => if truthy v then Some v else None
             | None => None
             end)
          600 (Some (Dec 1 (-1))).

Definition calculate_jewish_probability (w : env) (self : agent)
  (search_data : pystr) (image_analysis : option json) : M json :=
  catch
    (result <- chat w (client_key self)
                 (score_request self search_data image_analysis) ;;
     lift (score_reply w result))
    (fun e => ret (errore w "Error calculating score: " e)).

Definition search_queries (full_name : pystr) : list pystr :=
  [full_name ++ u " ethnic origin Jewish heritage";
   full_name ++ u " family background ancestry";
   full_name ++ u " religious affiliation cultural background"].

(** The loop of lines 257-260. *)
Fixpoint search_all (w : env) (self : agent) (queries : list pystr)
  : M (list pystr) :=
  match queries with
  | [] => ret []
  | query :: rest =>
      data <- web_search w self query 1500 ;;
      more <- search_all w self rest ;;
      ret (data :: more)
  end.

(** The value of the key dati_ricerca (line 276). *)
Definition dati_ricerca (combined_search_data : pystr) : pystr :=
  if (500 <? List.length combined_search_data)%nat
  then firstn 500 combined_search_data ++ u "..."
  else combined_search_data.

Definition analyze_person_jewish_identity (w : env) (self : agent)
  (nome cognome : pystr) (image_path image_url image_base64 : option pystr)
  : M json :=
  let full_name := strip (nome ++ u " " ++ cognome) in
  all_search_data <- search_all w self (search_queries full_name) ;;
  let combined_search_data := join (u (String "010" (String "010" ""))) all_search_data in
  image_analysis <-
    (if supplied image_path || supplied image_url || supplied image_base64
     then
       r <- analyze_ethnic_image w self image_path image_url image_base64
              full_name ;;
       ret (Some r)
     else ret None) ;;
  final_analysis <-
    calculate_jewish_probability w self combined_search_data image_analysis ;;
  ret (JObj [(u "persona", JStr full_name);
             (u "timestamp", JStr (u "2025-09-22"));
             (u "dati_ricerca", JStr (dati_ricerca combined_search_data));
             (u "analisi_immagine",
              match image_analysis with Some v => v | None => JNull end);
             (u "risultato_finale", final_analysis)]).

End Agent.

(** ** src/api/analyze.py *)

Module Api.
Import Json World Agent.

(** What the handler puts on the wire, in order: a status line with its
    headers, or a body (the value given to json.dumps). *)
Inductive sent :=
| Head (code : nat)
| Payload (body : json).

(** [handler.send_error]: the status and a JSON object with the message. *)
Definition send_error (code : nat) (message : pystr) : list sent :=
  [Head code; Payload (JObj [(u "error", JStr message)])].

(** [data.get(key, default)] *)
Definition py_get (data : json) (key : string) (default : json) : outcome json :=
  match data with
  | JObj d =>
      Val (match dict_get d (u key) with Some v => v | None => default end)
  | _ => Exc AttributeError
  end.

(** The text of a value inside an f-string. *)
Definition py_format (w : env) (v : json) : pystr :=
  match v with
  | JStr s => s
  | _ => let (c, s) := format_other w v in c :: s
  end.

Definition of_decode (r : res json) : outcome json :=
  match r with
  | Ok v => Val v
  | Err DecodeError => Exc JSONDecodeError
  | Err Json.ValueError => Exc World.ValueError
  | Err Json.RecursionError => Exc World.RecursionError
  end.

(** A surrogate code point: what [str.encode('utf-8')] refuses. *)
Definition is_surrogate (c : N) : bool := ((55296 <=? c) && (c <=? 57343))%N.

(** [json.dumps(v, ensure_ascii=False).encode('utf-8')] succeeds. *)
Definition utf8_encodable (v : json) : bool :=
  forallb (fun c => negb (is_surrogate c)) (json_chars v).

(** [handler.do_POST], from the decoded request body on.  The status line
    200 is sent before the result is serialized, so a result that cannot be
    encoded leaves a 200 status line followed by the 500 error. *)
Definition do_POST (w : env) (post_data : text)
  : list event -> list sent * list event :=
  fun t =>
    let attempt : M (list sent) :=
      data <- lift (of_decode (loads (max_str_digits w) (depth w) post_data)) ;;
      firstName <- lift (py_get data "firstName" (JStr [])) ;;
      lastName <- lift (py_get data "lastName" (JStr [])) ;;
      imageBase64 <- lift (py_get data "imageBase64" JNull) ;;
      if negb (truthy firstName) || negb (truthy lastName) then
        ret (send_error 400 (u "First name and last name are required"))
      else if negb (supplied (getenv_key w)) then
        ret (send_error 500 (u "OpenAI API key not configured"))
      else
        let agent := new_agent (get (getenv_key w)) in
        let image_param :=
          if truthy imageBase64 then Some (py_format w imageBase64) else None in
        result <- analyze_person_jewish_identity w agent
                    (py_format w firstName) (py_format w lastName)
                    None None image_param ;;
        if utf8_encodable result then ret [Head 200; Payload result]
        else
          ret (Head 200
               :: send_error 500
                    (u "Analysis failed: " ++ str_exn w UnicodeEncodeError)) in
    match attempt t with
    | (Val r, t') => (r, t')
    | (Exc e, t') => (send_error 500 (u "Analysis failed: " ++ str_exn w e), t')
    end.

End Api.

(** ** src/python/agent.py, the command line *)

Module Cli.
Import Json World Agent.

(** What a run of the program leaves: the one line printed on standard
    output (the value given to json.dumps) and the exit status. *)
Record completed := Completed { stdout : json; exit_code : nat }.

(** [print(json.dumps(v, ensure_ascii=False))] succeeds: standard output can
    encode every character of the text. *)
Definition printable (w : env) (v : json) : bool :=
  forallb (fun c => (c <? 128)%N || stdout_encodes w c) (json_chars v).

(** [main], with [argv] for sys.argv (the program name first). *)
Definition main (w : env) (argv : list pystr)
  : list event -> completed * list event :=
  fun t =>
    if (List.length argv <? 3)%nat then
      (Completed
         (JObj [(u "error",
                 JStr (u "Usage: python agent.py <first_name> <last_name> [image_base64]"))])
         1, t)
    else if negb (supplied (getenv_key w)) then
      (Completed
         (JObj [(u "error",
                 JStr (u "OpenAI API key not found. Set OPENAI_API_KEY environment variable."))])
         1, t)
    else
      let attempt : M json :=
        let nome := nth 1 argv [] in
        let cognome := nth 2 argv [] in
        let image_base64 :=
          if (3 <? List.length argv)%nat then Some (nth 3 argv []) else None in
        let agent := new_agent (get (getenv_key w)) in
        result <- analyze_person_jewish_identity w agent nome cognome
                    None None image_base64 ;;
        if printable w result then ret result
        else raise UnicodeEncodeError in
      match attempt t with
      | (Val result, t') => (Completed result 0, t')
      | (Exc e, t') =>
          (Completed (JObj [(u "error", JStr (str_exn w e))]) 1, t')
      end.

End Cli.

(** ** Reference definitions

    Direct descriptions of what the patterns find, used to state the
    properties without mentioning the matcher; each is proved equal to the
    search it describes. *)

Module Spec.
Import Json World.

(** The longest prefix of [s] that ends with a closing brace. *)
Fixpoint upto_last_close (s : text) : option text :=
  match s with
  | [] => None
  | c :: r =>
      match upto_last_close r with
      | Some p => Some (c :: p)
      | None => if isc "}" c then Some [c] else None
      end
  end.

(** The text from the first opening brace to the last closing brace, when a
    closing brace follows an opening one. *)
Fixpoint brace_span (s : text) : option text :=
  match s with
  | [] => None
  | c :: r =>
      if isc "{" c then
        match upto_last_close r with
        | Some p => Some (c :: p)
        | None => brace_span r
        end
      else brace_span r
  end.

(** The longest prefix of decimal digits. *)
Fixpoint digit_run (ud : unicode) (s : text) : text :=
  match s with
  | c :: r => if Re.is_digit ud c then c :: digit_run ud r else []
  | [] => []
  end.

(** The first integer token: the first maximal run of decimal digits. *)
Fixpoint first_digit_run (ud : unicode) (s : text) : option text :=
  match s with
  | [] => None
  | c :: r =>
      if Re.is_digit ud c then Some (digit_run ud s)
      else first_digit_run ud r
  end.

Fixpoint ends_in_digit (ud : unicode) (s : text) : bool :=
  match s with
  | [] => false
  | [c] => Re.is_digit ud c
  | _ :: r => ends_in_digit ud r
  end.

(** The text starts with the letters of [word], up to letter case. *)
Fixpoint starts_with (ud : unicode) (word s : text) : bool :=
  match word, s with
  | [], _ => true
  | x :: word', c :: s' => letter_eq ud x c && starts_with ud word' s'
  | _ :: _, [] => false
  end.

(** No occurrence of [word], up to letter case, starts inside [pre] when
    [pre] is followed by [rest]. *)
Fixpoint no_occurrence (ud : unicode) (word pre rest : text) : bool :=
  match pre with
  | [] => true
  | _ :: pre' =>
      negb (starts_with ud word (pre ++ rest))
      && no_occurrence ud word pre' rest
  end.

(** A name field is missing from a request object: the key is absent, or
    its value is one Python takes for false (empty string, null, 0, ...). *)
Definition missing (d : list (pystr * json)) (key : string) : Prop :=
  match dict_get d (u key) with
  | None => True
  | Some v => truthy v = false
  end.

(** The image source the specification's order would attach: inline base64
    first, then the local path, then the remote URL. *)
Definition spec_priority_url (file_b64 : pystr)
  (image_path image_url image_base64 : option pystr) : option pystr :=
  if Agent.supplied image_base64
  then Some (u "data:image/jpeg;base64," ++ Agent.get image_base64)
  else if Agent.supplied image_path
  then Some (u "data:image/jpeg;base64," ++ file_b64)
  else if Agent.supplied image_url then Some (Agent.get image_url)
  else None.

(** A run of digits. *)
Definition digits (ud : unicode) (s : text) : Prop :=
  forallb (Re.is_digit ud) s = true.

(** A continuation of the matcher whose captured group is a run of digits. *)
Definition good (ud : unicode) (k : text -> option Re.mres) : Prop :=
  forall s m, k s = Some m -> digits ud (Re.m_group m).

(** A class that, when captured, holds digits only. *)
Definition compat (ud : unicode) (ok : N -> bool) (g : bool) : Prop :=
  g = true -> forall c, ok c = true -> Re.is_digit ud c = true.

Definition digit_groups (ud : unicode) (p : Re.regex) : Prop :=
  Forall (fun a => compat ud (Re.in_cls ud (Re.a_cls a)) (Re.a_group a)) p.

(** A scanner that consumes at least one character when it succeeds. *)
Definition consuming (scan : text -> res (json * text)) : Prop :=
  forall s v r, scan s = Ok (v, r) -> List.length r < List.length s.

(** The vision request analyze_ethnic_image sends, and the events before it:
    a supplied path is read first and nothing is sent when the read fails;
    otherwise the inline data, otherwise the URL is sent; with no image,
    nothing. *)
Definition vision_call (w : env) (self : Agent.agent)
  (image_path image_url image_base64 : option pystr) (person_name : pystr)
  (t : list event) : option (list event * request) :=
  if Agent.supplied image_path then
    match read_b64 w t (Agent.get image_path) with
    | Val b =>
        Some (t ++ [ReadFile (Agent.get image_path)],
              Agent.vision_request self person_name
                (u "data:image/jpeg;base64," ++ b))
    | Exc _ => None
    end
  else if Agent.supplied image_base64 then
    Some (t, Agent.vision_request self person_name
               (u "data:image/jpeg;base64," ++ Agent.get image_base64))
  else if Agent.supplied image_url then
    Some (t, Agent.vision_request self person_name (Agent.get image_url))
  else None.

End Spec.

(** ** Concrete worlds for the examples *)

Module Examples.
Import Json World Agent.

(** A part of the Unicode database outside ASCII: the Arabic-Indic and
    fullwidth digits, and the two letters (capital I with dot, dotless i)
    that re.IGNORECASE takes for an i.  The examples use no other digit and
    no other cased letter outside ASCII. *)
Definition sample_unicode : unicode :=
  Unicode
    (fun c =>
       if ((1632 <=? c) && (c <=? 1641))%N then Some (c - 1632)%N
       else if ((65296 <=? c) && (c <=? 65305))%N then Some (c - 65296)%N
       else None)
    (fun x c => N.eqb x 105 && (N.eqb c 304 || N.eqb c 305))%N.

(** Standard output in UTF-8: everything but the surrogates. *)
Definition utf8 (c : N) : bool := negb (Api.is_surrogate c).

(** A world with the defaults of CPython (about 900 levels left for the
    decoder, 4300 digits, UTF-8 output), a credential, and the given
    endpoints and file system. *)
Definition world (remote : list event -> pystr -> request -> outcome text)
  (read : list event -> pystr -> outcome pystr) : env :=
  Env remote read (Some (u "sk-test")) 900 4300 sample_unicode utf8
      (fun _ => u "error") (fun _ => (chr "?", [])).

(** Every request is answered with [reply]; every file reads as the bytes
    FILE (base64 RklMRQ==). *)
Definition w_reply (reply : text) : env :=
  world (fun _ _ _ => Val reply) (fun _ _ => Val (u "RklMRQ==")).

(** Every request fails with the message [msg]. *)
Definition w_fail (msg : string) : env :=
  world (fun _ _ _ => Exc (Raised (u msg))) (fun _ _ => Val (u "RklMRQ==")).

(** Searches and vision requests are answered with [stub], scoring requests
    with [score]; no file can be read. *)
Definition w_stub (stub score : text) : env :=
  world (fun _ _ r => match content r with
                      | ScorePrompt _ _ => Val score
                      | _ => Val stub
                      end)
        (fun _ _ => Exc (Raised (u "No such file or directory"))).

(** The same without a credential. *)
Definition w_nokey (reply : text) : env :=
  Env (fun _ _ _ => Val reply) (fun _ _ => Val []) None 900 4300
      sample_unicode utf8 (fun _ => u "error") (fun _ => (chr "?", [])).

Definition a0 : agent := new_agent (u "sk-test").

Definition jane : pystr := u "Jane Doe".

(** An inline image (the bytes ABC). *)
Definition inline : option pystr := Some (u "QUJD").

(** [n] opening brackets, a 1, [n] closing brackets. *)
Definition nested (n : nat) : text :=
  repeat (chr "[") n ++ lit "1" ++ repeat (chr "]") n.

End Examples.

(** ** Vocabulary for the properties of whole runs *)

Module Shape.
Import Json World Agent.

(** The event is a call to a hosted model. *)
Definition is_chat (ev : event) : bool :=
  match ev with
  | Chat _ _ => true
  | ReadFile _ => false
  end.

(** Number of calls to hosted models among the events. *)
Definition chats (t : list event) : nat := List.length (filter is_chat t).

(** The request of one background search. *)
Definition search_event (self : agent) (query : pystr) : event :=
  Chat (client_key self)
       (Request (search_model self) (SearchPrompt query) 1500 None).

(** What web_search hands back for an outcome of the endpoint. *)
Definition search_text (w : env) (o : outcome text) : pystr :=
  match o with
  | Val c => up c
  | Exc e => u "Error during web search: " ++ str_exn w e
  end.

(** The text holds white space only. *)
Definition all_space (s : pystr) : bool := forallb py_isspace s.

(** First and last character of a string are not white space. *)
Definition trimmed (s : pystr) : Prop :=
  match s with
  | [] => True
  | c :: _ => py_isspace c = false /\ py_isspace (last s c) = false
  end.

(** The two blank-line separator of the search results. *)
Definition blank_line : pystr := u (String "010" (String "010" "")).

(** The full name the run works with. *)
Definition full_name (nome cognome : pystr) : pystr :=
  strip (nome ++ u " " ++ cognome).

(** The outside events of one image analysis that starts after [t]: a path
    is read first and asked about only when the read succeeds; otherwise the
    inline data, otherwise the URL, is asked about; with no image, nothing. *)
Definition image_events (w : env) (self : agent)
  (image_path image_url image_base64 : option pystr) (person_name : pystr)
  (t : list event) : list event :=
  let ask url := Chat (client_key self) (vision_request self person_name url) in
  if supplied image_path then
    ReadFile (get image_path)
    :: match read_b64 w t (get image_path) with
       | Val b => [ask (u "data:image/jpeg;base64," ++ b)]
       | Exc _ => []
       end
  else if supplied image_base64 then
    [ask (u "data:image/jpeg;base64," ++ get image_base64)]
  else if supplied image_url then [ask (get image_url)]
  else [].

(** The image analysis as the scoring prompt shows it: an analysis that is
    absent or an empty dict is shown as "No image provided". *)
Definition shown_analysis (image_analysis : option json) : option json :=
  match image_analysis with
  | Some (JObj (_ :: _) as v) => Some v
  | _ => None
  end.

(** [d.get(key, default)] on a dict. *)
Definition value_of (d : list (pystr * json)) (key : string) (default : json)
  : json :=
  match dict_get d (u key) with
  | Some v => v
  | None => default
  end.

(** The image argument the HTTP handler passes on: the text of imageBase64
    when its value is true, else None. *)
Definition image_param (w : env) (d : list (pystr * json)) : option pystr :=
  if truthy (value_of d "imageBase64" JNull)
  then Some (Api.py_format w (value_of d "imageBase64" JNull))
  else None.

(** A request the HTTP handler accepts: the body decodes to an object whose
    two names are true values, and the credential is set. *)
Definition accepted (w : env) (post_data : text) (d : list (pystr * json))
  : Prop :=
  loads (max_str_digits w) (depth w) post_data = Ok (JObj d)
  /\ truthy (value_of d "firstName" (JStr [])) = true
  /\ truthy (value_of d "lastName" (JStr [])) = true
  /\ supplied (getenv_key w) = true.

(** What the handler sends for a run that returned [r]. *)
Definition answer (w : env) (r : json) : list Api.sent :=
  if Api.utf8_encodable r then [Api.Head 200; Api.Payload r]
  else Api.Head 200
       :: Api.send_error 500
            (u "Analysis failed: " ++ str_exn w UnicodeEncodeError).

(** The hosted endpoint answers every scoring request with [reply]. *)
Definition scoring_replies_with (w : env) (reply : text) : Prop :=
  forall t key r search_data image_analysis,
    content r = ScorePrompt search_data image_analysis ->
    remote w t key r = Val reply.

(** Every call to the hosted models raises. *)
Definition always_fails (w : env) : Prop :=
  forall t key r, exists e, remote w t key r = Exc e.

End Shape.

(** * Properties *)

Import Json World Agent Api Cli Spec Examples Shape.

#[local] Arguments eqc : simpl never.
#[local] Arguments isc : simpl never.
#[local] Arguments Re.is_digit : simpl never.

(** The tests on characters, decided. *)
Lemma eqc_spec (x c : N) : reflect (x = c) (eqc x c).
Proof. apply N.eqb_spec. Qed.

Lemma isc_spec (a : ascii) (c : N) : reflect (chr a = c) (isc a c).
Proof. apply N.eqb_spec. Qed.

Lemma isc_refl (a : ascii) : isc a (chr a) = true.
Proof. apply N.eqb_refl. Qed.

Lemma eqc_refl (c : N) : eqc c c = true.
Proof. apply N.eqb_refl. Qed.

(** ** What the four patterns find *)

Section Patterns.

Variable ud : unicode.

Let kend : text -> option Re.mres := fun _ => Some (Re.MRes [] []).
Let kclose : text -> option Re.mres :=
  Re.one (Re.in_cls ud (Re.Chr (chr "}"))) false kend.

Lemma star_any_close (s : text) :
  Re.star (Re.in_cls ud Re.Any) false kclose s
  = option_map (fun x => Re.MRes x []) (upto_last_close s).
Proof.
  induction s as [|c r IH]; [reflexivity|].
  cbn [Re.star Re.in_cls upto_last_close]. rewrite IH.
  destruct (upto_last_close r) as [p|]; [reflexivity|].
  unfold kclose, Re.one, kend, isc. cbn [Re.in_cls option_map].
  destruct (eqc (chr "}") c); reflexivity.
Qed.

Lemma search_json_pat (s : text) :
  Re.search ud Re.json_pat s
  = option_map (fun x => Re.MRes x []) (brace_span s).
Proof.
  induction s as [|c r IH]; [reflexivity|].
  cbn [Re.search Re.json_pat Re.match_here Re.a_cls Re.a_quant Re.a_group
       Re.one brace_span Re.in_cls].
  unfold isc. destruct (eqc (chr "{") c).
  - fold kend. fold kclose. rewrite star_any_close.
    destruct (upto_last_close r) as [p|]; [reflexivity|].
    cbn [option_map]. exact IH.
  - exact IH.
Qed.

Lemma upto_last_close_none (s : text) :
  ~ In (chr "}") s -> upto_last_close s = None.
Proof.
  induction s as [|c r IH]; intros H; [reflexivity|].
  cbn [upto_last_close]. rewrite IH by (intros K; apply H; now right).
  destruct (isc_spec "}" c) as [E|E]; [|reflexivity].
  exfalso. apply H. now left.
Qed.

Lemma upto_last_close_app (mid post : text) :
  ~ In (chr "}") post ->
  upto_last_close (mid ++ chr "}" :: post) = Some (mid ++ [chr "}"]).
Proof.
  intros H. induction mid as [|c r IH].
  - cbn [app upto_last_close]. rewrite upto_last_close_none by exact H.
    now rewrite isc_refl.
  - cbn [app upto_last_close]. now rewrite IH.
Qed.

Lemma brace_span_app (pre mid post : text) :
  ~ In (chr "{") pre -> ~ In (chr "}") post ->
  brace_span (pre ++ chr "{" :: mid ++ chr "}" :: post)
  = Some (chr "{" :: mid ++ [chr "}"]).
Proof.
  intros Hpre Hpost. induction pre as [|c r IH].
  - cbn [app brace_span]. rewrite isc_refl.
    now rewrite upto_last_close_app.
  - cbn [app brace_span].
    destruct (isc_spec "{" c) as [E|E].
    + exfalso. apply Hpre. now left.
    + apply IH. intros K. apply Hpre. now right.
Qed.

Lemma brace_span_head (s x : text) :
  brace_span s = Some x -> exists r, x = chr "{" :: r.
Proof.
  induction s as [|c r IH]; [discriminate|].
  cbn [brace_span]. destruct (isc_spec "{" c) as [E|E]; [|exact IH].
  destruct (upto_last_close r) as [p|]; [|exact IH].
  intros [= <-]. subst c. now exists p.
Qed.

Lemma brace_span_none (s : text) :
  ~ In (chr "{") s -> brace_span s = None.
Proof.
  induction s as [|c r IH]; intros H; [reflexivity|].
  cbn [brace_span]. destruct (isc_spec "{" c) as [E|E].
  - exfalso. apply H. now left.
  - apply IH. intros K. apply H. now right.
Qed.

Lemma star_digit_end (g : bool) (s : text) :
  Re.star (Re.is_digit ud) g kend s
  = Some (Re.MRes (digit_run ud s) (if g then digit_run ud s else [])).
Proof.
  induction s as [|c r IH]; [now destruct g|].
  cbn [Re.star digit_run]. destruct (Re.is_digit ud c).
  - rewrite IH. now destruct g.
  - now destruct g.
Qed.

Lemma match_int_pat (s : text) :
  Re.match_here ud Re.int_pat s
  = match s with
    | c :: r =>
        if Re.is_digit ud c
        then Some (Re.MRes (digit_run ud s) (digit_run ud s))
        else None
    | [] => None
    end.
Proof.
  destruct s as [|c r]; [reflexivity|].
  cbn [Re.int_pat Re.match_here Re.a_cls Re.a_quant Re.a_group Re.one
       Re.in_cls digit_run].
  destruct (Re.is_digit ud c) eqn:D; [|reflexivity].
  fold kend. change (Re.in_cls ud Re.Digit) with (Re.is_digit ud).
  rewrite star_digit_end. reflexivity.
Qed.

Lemma search_int_pat (s : text) :
  Re.search ud Re.int_pat s
  = option_map (fun ds => Re.MRes ds ds) (first_digit_run ud s).
Proof.
  induction s as [|c r IH]; [reflexivity|].
  cbn [Re.search]. rewrite match_int_pat. cbn [first_digit_run].
  destruct (Re.is_digit ud c); [reflexivity|exact IH].
Qed.

End Patterns.

Section Percent.

Variable ud : unicode.

Let kend : text -> option Re.mres := fun _ => Some (Re.MRes [] []).
Let kpct : text -> option Re.mres :=
  Re.one (Re.in_cls ud (Re.Chr (chr "%"))) false kend.

Lemma kpct_miss (c : N) (r : text) : chr "%" <> c -> kpct (c :: r) = None.
Proof.
  intros H. unfold kpct, Re.one. cbn [Re.in_cls].
  destruct (eqc_spec (chr "%") c) as [E|E]; [contradiction|reflexivity].
Qed.

Lemma star_digit_pct_none (g : bool) (pre rest : text) :
  pre <> [] -> ~ In (chr "%") pre -> ends_in_digit ud pre = false ->
  Re.star (Re.is_digit ud) g kpct (pre ++ rest) = None.
Proof.
  induction pre as [|c pre' IH]; intros Hne Hin Hend; [congruence|].
  assert (Hk : kpct ((c :: pre') ++ rest) = None).
  { apply kpct_miss. intros E. apply Hin. now left. }
  cbn [app Re.star]. destruct (Re.is_digit ud c) eqn:D; [|exact Hk].
  destruct pre' as [|c' pre''].
  - cbn in Hend. congruence.
  - rewrite IH; [exact Hk|discriminate| |exact Hend].
    intros K. apply Hin. now right.
Qed.

Lemma match_percent_none (pre rest : text) :
  pre <> [] -> ~ In (chr "%") pre -> ends_in_digit ud pre = false ->
  Re.match_here ud Re.percent_pat (pre ++ rest) = None.
Proof.
  intros Hne Hin Hend. destruct pre as [|c pre']; [congruence|].
  cbn [Re.percent_pat Re.match_here Re.a_cls Re.a_quant Re.a_group Re.one
       Re.in_cls app].
  destruct (Re.is_digit ud c) eqn:D; [|reflexivity].
  destruct pre' as [|c' pre''].
  - cbn in Hend. congruence.
  - fold kend. fold kpct. change (Re.in_cls ud Re.Digit) with (Re.is_digit ud).
    rewrite star_digit_pct_none; [reflexivity|discriminate| |exact Hend].
    intros K. apply Hin. now right.
Qed.

Lemma star_digits_pct (ds post : text) :
  forallb (Re.is_digit ud) ds = true ->
  Re.is_digit ud (chr "%") = false ->
  Re.star (Re.is_digit ud) true kpct (ds ++ chr "%" :: post)
  = Some (Re.MRes (ds ++ [chr "%"]) ds).
Proof.
  intros H P. induction ds as [|d ds' IH].
  - cbn [app Re.star]. rewrite P. unfold kpct, Re.one. cbn [Re.in_cls].
    now rewrite eqc_refl.
  - cbn in H. apply andb_prop in H as [Hd Hds].
    cbn [app Re.star]. rewrite Hd, (IH Hds). reflexivity.
Qed.

Lemma search_percent_app (pre ds post : text) :
  ~ In (chr "%") pre -> ends_in_digit ud pre = false ->
  ds <> [] -> forallb (Re.is_digit ud) ds = true ->
  Re.is_digit ud (chr "%") = false ->
  Re.search ud Re.percent_pat (pre ++ ds ++ chr "%" :: post)
  = Some (Re.MRes (ds ++ [chr "%"]) ds).
Proof.
  intros Hin Hend Hne Hds P. induction pre as [|c pre' IH].
  - destruct ds as [|d ds']; [congruence|].
    cbn in Hds. apply andb_prop in Hds as [Hd Hds].
    cbn [app Re.search Re.percent_pat Re.match_here Re.a_cls Re.a_quant
         Re.a_group Re.one Re.in_cls].
    rewrite Hd. fold kend. fold kpct.
    change (Re.in_cls ud Re.Digit) with (Re.is_digit ud).
    rewrite (star_digits_pct ds' post Hds P).
    reflexivity.
  - change ((c :: pre') ++ ds ++ chr "%" :: post)
      with (c :: pre' ++ ds ++ chr "%" :: post).
    cbn [Re.search].
    change (c :: pre' ++ ds ++ chr "%" :: post)
      with ((c :: pre') ++ ds ++ chr "%" :: post).
    rewrite match_percent_none; [|discriminate|exact Hin|exact Hend].
    apply IH.
    + intros K. apply Hin. now right.
    + destruct pre'; [reflexivity|exact Hend].
Qed.

End Percent.


(** ** The captured group is a run of digits, and [int] of it is not
    negative *)

Section Groups.

Variable ud : unicode.

Lemma consume_digits ok g c m :
  compat ud ok g -> ok c = true -> digits ud (Re.m_group m) ->
  digits ud (Re.m_group (Re.consume g c m)).
Proof.
  intros Hc Hok Hm. unfold Re.consume. cbn [Re.m_group].
  destruct g; [|exact Hm].
  unfold digits. cbn. rewrite (Hc eq_refl c Hok). exact Hm.
Qed.

Lemma one_good ok g k :
  compat ud ok g -> good ud k -> good ud (Re.one ok g k).
Proof.
  intros Hc Hk s m. unfold Re.one. destruct s as [|c s']; [discriminate|].
  destruct (ok c) eqn:E; [|discriminate].
  destruct (k s') as [r|] eqn:K; [|discriminate].
  intros [= <-]. apply (consume_digits ok); auto. exact (Hk _ _ K).
Qed.

Lemma star_good ok g k :
  compat ud ok g -> good ud k -> good ud (Re.star ok g k).
Proof.
  intros Hc Hk s. induction s as [|c s' IH]; intros m; cbn [Re.star].
  - apply Hk.
  - destruct (ok c) eqn:E; [|apply Hk].
    destruct (Re.star ok g k s') as [r|] eqn:K; [|apply Hk].
    intros [= <-]. apply (consume_digits ok); auto.
Qed.

Lemma match_here_good (p : Re.regex) :
  digit_groups ud p -> good ud (Re.match_here ud p).
Proof.
  induction 1 as [|a p' Ha Hp IH].
  - intros s m [= <-]. reflexivity.
  - cbn [Re.match_here]. destruct (Re.a_quant a).
    + now apply one_good.
    + now apply star_good.
    + apply one_good; [exact Ha|]. now apply star_good.
Qed.

Lemma search_good (p : Re.regex) :
  digit_groups ud p -> good ud (Re.search ud p).
Proof.
  intros Hp s. induction s as [|c s' IH]; intros m; cbn [Re.search].
  - destruct (Re.match_here ud p []) as [r|] eqn:E; [|discriminate].
    intros [= <-]. exact (match_here_good p Hp _ _ E).
  - destruct (Re.match_here ud p (c :: s')) as [r|] eqn:E; [|apply IH].
    intros [= <-]. exact (match_here_good p Hp _ _ E).
Qed.

Lemma compat_nogroup ok : compat ud ok false.
Proof. intros H. discriminate. Qed.

Lemma compat_digit g : compat ud (Re.in_cls ud Re.Digit) g.
Proof. intros _ c H. exact H. Qed.

Lemma int_pat_groups : digit_groups ud Re.int_pat.
Proof. repeat constructor; apply compat_digit. Qed.

Lemma percent_pat_groups : digit_groups ud Re.percent_pat.
Proof.
  repeat constructor; [apply compat_digit | apply compat_nogroup].
Qed.

Lemma probability_pat_groups : digit_groups ud Re.probability_pat.
Proof.
  unfold Re.probability_pat. apply Forall_app. split.
  - apply Forall_map. apply Forall_forall. intros c _. apply compat_nogroup.
  - repeat constructor; [apply compat_nogroup | apply compat_digit].
Qed.

Lemma digits_value_nonneg (value : N -> option N) (s : text) (acc : option Z)
  (z : Z) :
  (forall a, acc = Some a -> (0 <= a)%Z) ->
  fold_left (int_step value) s acc = Some z -> (0 <= z)%Z.
Proof.
  revert acc. induction s as [|c s' IH]; intros acc Hacc; cbn [fold_left].
  - exact (Hacc z).
  - apply IH. intros a. unfold int_step.
    destruct acc as [a0|]; [|discriminate].
    destruct (value c) as [d|]; [|discriminate].
    intros [= <-]. specialize (Hacc a0 eq_refl).
    pose proof (N2Z.is_nonneg d). destruct a0; lia.
Qed.

(** [int] of a text is never negative. *)
Lemma py_int_nonneg (max : nat) (s : text) (z : Z) :
  py_int ud max s = Some z -> (0 <= z)%Z.
Proof.
  unfold py_int. destruct s as [|c s']; [discriminate|].
  destruct (too_long max _); [discriminate|].
  apply digits_value_nonneg. intros a [= <-]. lia.
Qed.

Lemma digits_value_some (s : text) (acc : Z) :
  digits ud s ->
  exists z, fold_left (int_step (decimal_of ud)) s (Some acc) = Some z.
Proof.
  revert acc. induction s as [|c s' IH]; intros acc Hs; cbn [fold_left].
  - now exists acc.
  - unfold digits in Hs. cbn in Hs. apply andb_prop in Hs as [Hc Hs].
    unfold Re.is_digit in Hc. unfold int_step at 2.
    destruct (decimal_of ud c) as [d|]; [|discriminate].
    apply IH. exact Hs.
Qed.

(** [int] reads every run of digits that is not empty and not too long. *)
Lemma py_int_some (max : nat) (s : text) :
  digits ud s -> s <> [] -> too_long max (List.length s) = false ->
  exists z, py_int ud max s = Some z.
Proof.
  intros Hs Hne Hl. unfold py_int. destruct s as [|c s']; [congruence|].
  rewrite Hl. unfold digits_value. now apply digits_value_some.
Qed.

(** [int] refuses a run of digits that is too long. *)
Lemma py_int_too_long (max : nat) (s : text) :
  too_long max (List.length s) = true -> py_int ud max s = None.
Proof.
  intros Hl. unfold py_int. destruct s as [|c s']; [reflexivity|].
  now rewrite Hl.
Qed.

End Groups.

(** ** The decoder on a text that starts with a brace *)

Section Decoder.

Variable max : nat.

Lemma parse_members_obj scan fuel s acc v r :
  parse_members scan fuel s acc = Ok (v, r) -> exists m, v = JObj m.
Proof.
  revert s acc. induction fuel as [|n IH]; intros s acc; cbn [parse_members];
    [discriminate|].
  destruct s as [|c s']; [discriminate|].
  destruct (eqc c dquote); [|discriminate].
  destruct (scan_string s' []) as [[key r1]|e]; cbn [rbind]; [|discriminate].
  destruct (skip_ws r1) as [|c1 r2]; [discriminate|].
  destruct (isc ":" c1); [|discriminate].
  destruct (scan (skip_ws r2)) as [[x r3]|e]; cbn [rbind]; [|discriminate].
  destruct (skip_ws r3) as [|c2 r4]; [discriminate|].
  destruct (isc "}" c2).
  - intros [= <- _]. eauto.
  - destruct (isc "," c2); [apply IH|discriminate].
Qed.

Lemma loads_brace_dict depth r v :
  loads max depth (chr "{" :: r) = Ok v -> exists m, v = JObj m.
Proof.
  unfold loads. cbn [skip_ws]. change (is_ws (chr "{")) with false. cbv iota.
  destruct depth as [|d]; cbn [scan_once];
    change (eqc (chr "{") dquote) with false;
    change (isc "{" (chr "{")) with true; cbv iota; cbn [rbind];
    [discriminate|].
  unfold parse_object. destruct (skip_ws r) as [|c r0]; [discriminate|].
  destruct (isc "}" c).
  - cbn [rbind]. destruct (skip_ws r0); [|discriminate].
    intros [= <-]. eauto.
  - destruct (parse_members _ _ _ _) as [[x r1]|e] eqn:E; cbn [rbind];
      [|discriminate].
    destruct (skip_ws r1); [|discriminate].
    intros [= <-]. exact (parse_members_obj _ _ _ _ _ _ E).
Qed.

End Decoder.

(** ** The decoder's loops never run out of fuel

    Every scanner consumes at least one character, so the bound on the number
    of members of an object or items of an array, taken larger than the text,
    is never reached: a larger bound gives the same result. *)

Section Fuel.

Variable max : nat.

Lemma skip_ws_le (s : text) : List.length (skip_ws s) <= List.length s.
Proof.
  induction s as [|c r IH]; cbn [skip_ws]; [lia|].
  destruct (is_ws c); cbn [List.length]; lia.
Qed.

Lemma scan_string_shorter (n : nat) :
  forall s acc x r,
    List.length s <= n -> scan_string s acc = Ok (x, r) ->
    List.length r < List.length s.
Proof.
  induction n as [|n IH]; intros s acc x r Hn H;
    (destruct s as [|c s0]; [discriminate|]); cbn [List.length] in Hn; [lia|].
  cbn [scan_string] in H.
  repeat match type of H with
         | Ok _ = Ok _ => injection H as <- <-
         | Err _ = Ok _ => discriminate H
         | scan_string _ _ = Ok _ =>
             apply IH in H; cbn [List.length] in *; [lia|lia]
         | context [if ?b then _ else _] => destruct b
         | context [match ?l with _ => _ end] => destruct l
         end;
    cbn [List.length]; lia.
Qed.

Lemma span_digits_le (s ds rest : text) :
  span_digits s = (ds, rest) -> List.length rest <= List.length s.
Proof.
  revert ds rest. induction s as [|c r IH]; intros ds rest; cbn [span_digits].
  - intros [= <- <-]. cbn. lia.
  - destruct (is_ascii_digit c).
    + destruct (span_digits r) as [ds' rest'] eqn:E.
      intros [= <- <-]. specialize (IH _ _ eq_refl). cbn [List.length]. lia.
    + intros [= <- <-]. lia.
Qed.

Lemma scan_number_shorter (s : text) (v : json) (r : text) :
  scan_number max s = Ok (v, r) -> List.length r < List.length s.
Proof.
  unfold scan_number.
  set (p := match s with
            | c :: r0 => if isc "-" c then (true, r0) else (false, s)
            | [] => (false, s)
            end).
  assert (P : List.length (snd p) <= List.length s).
  { subst p. destruct s as [|c r0]; [cbn; lia|].
    destruct (isc "-" c); cbn; lia. }
  destruct p as [neg s1]. cbn [snd] in P.
  set (q := match s1 with
            | c :: r0 =>
                if isc "0" c then Ok ([c], r0)
                else if is_ascii_digit c then Ok (span_digits s1)
                else Err DecodeError
            | [] => Err DecodeError
            end).
  assert (Q : forall ipart s2, q = Ok (ipart, s2) ->
                List.length s2 < List.length s1).
  { subst q. intros ipart s2. destruct s1 as [|c r0]; [discriminate|].
    destruct (isc "0" c); [intros [= <- <-]; cbn; lia|].
    destruct (is_ascii_digit c) eqn:D; [|discriminate].
    cbn [span_digits]. rewrite D.
    destruct (span_digits r0) as [ds rest] eqn:E.
    intros [= <- <-]. apply span_digits_le in E. cbn [List.length]. lia. }
  destruct q as [[ipart s2]|e]; cbn [rbind]; [|discriminate].
  specialize (Q _ _ eq_refl).
  set (f := match s2 with
            | p0 :: d :: _ =>
                if isc "." p0 && is_ascii_digit d then span_digits (tl s2)
                else ([], s2)
            | _ => ([], s2)
            end).
  assert (F : List.length (snd f) <= List.length s2).
  { subst f. destruct s2 as [|p0 [|d r0]]; try (cbn; lia).
    destruct (isc "." p0 && is_ascii_digit d); [|cbn; lia].
    cbn [tl]. destruct (span_digits (d :: r0)) as [ds rest] eqn:E.
    apply span_digits_le in E. cbn [snd List.length] in *. lia. }
  destruct f as [fpart s3]. cbn [snd] in F.
  set (x := match s3 with
            | e :: r0 =>
                if isc "e" e || isc "E" e then
                  let (eneg, r1) :=
                    match r0 with
                    | sg :: r' =>
                        if isc "-" sg then (true, r')
                        else if isc "+" sg then (false, r')
                        else (false, r0)
                    | [] => (false, r0)
                    end in
                  match span_digits r1 with
                  | ([], _) => (None, s3)
                  | (ds, rest) =>
                      (Some (if eneg then - nat_value ds else nat_value ds)%Z, rest)
                  end
                else (None, s3)
            | [] => (None, s3)
            end).
  assert (X : List.length (snd x) <= List.length s3).
  { subst x. destruct s3 as [|e r0]; [cbn; lia|].
    destruct (isc "e" e || isc "E" e); [|cbn; lia].
    set (y := match r0 with
              | sg :: r' =>
                  if isc "-" sg then (true, r')
                  else if isc "+" sg then (false, r')
                  else (false, r0)
              | [] => (false, r0)
              end).
    assert (Y : List.length (snd y) <= List.length r0).
    { subst y. destruct r0 as [|sg r']; [cbn; lia|].
      destruct (isc "-" sg); [cbn; lia|].
      destruct (isc "+" sg); cbn; lia. }
    destruct y as [eneg r1]. cbn [snd] in Y.
    destruct (span_digits r1) as [ds rest] eqn:E.
    apply span_digits_le in E.
    destruct ds; cbn [snd List.length]; lia. }
  destruct x as [epart s4]. cbn [snd] in X.
  destruct fpart, epart;
    try destruct (too_long max _); try discriminate;
    intros [= _ <-]; lia.
Qed.

Lemma strip_prefix_shorter (c : N) (w s r : text) :
  strip_prefix (c :: w) s = Some r -> List.length r < List.length s.
Proof.
  revert c s. induction w as [|c' w' IH]; intros c s.
  - cbn. destruct s as [|y s']; [discriminate|].
    destruct (eqc c y); [|discriminate]. intros [= <-]. cbn. lia.
  - cbn [strip_prefix]. destruct s as [|y s']; [discriminate|].
    destruct (eqc c y); [|discriminate].
    intros H. apply IH in H. cbn [List.length]. lia.
Qed.

Lemma parse_members_shorter scan :
  consuming scan ->
  forall fuel s acc v r,
    parse_members scan fuel s acc = Ok (v, r) ->
    List.length r < List.length s.
Proof.
  intros Hs. induction fuel as [|n IH]; intros s acc v r;
    cbn [parse_members]; [discriminate|].
  destruct s as [|c s']; [discriminate|].
  destruct (eqc c dquote); [|discriminate].
  destruct (scan_string s' []) as [[key r1]|e] eqn:K; cbn [rbind];
    [|discriminate].
  apply (scan_string_shorter _ _ _ _ _ (le_n _)) in K.
  pose proof (skip_ws_le r1) as W1.
  destruct (skip_ws r1) as [|c1 r2]; [discriminate|].
  destruct (isc ":" c1); [|discriminate].
  pose proof (skip_ws_le r2) as W2.
  destruct (scan (skip_ws r2)) as [[x r3]|e] eqn:V; cbn [rbind];
    [|discriminate].
  apply Hs in V.
  pose proof (skip_ws_le r3) as W3.
  destruct (skip_ws r3) as [|c2 r4]; [discriminate|].
  cbn [List.length] in *.
  destruct (isc "}" c2).
  - intros [= _ <-]. lia.
  - destruct (isc "," c2); [|discriminate].
    intros H. apply IH in H. pose proof (skip_ws_le r4). lia.
Qed.

Lemma parse_items_shorter scan :
  consuming scan ->
  forall fuel s acc v r,
    parse_items scan fuel s acc = Ok (v, r) ->
    List.length r < List.length s.
Proof.
  intros Hs. induction fuel as [|n IH]; intros s acc v r;
    cbn [parse_items]; [discriminate|].
  destruct (scan s) as [[x r1]|e] eqn:V; cbn [rbind]; [|discriminate].
  apply Hs in V.
  pose proof (skip_ws_le r1) as W1.
  destruct (skip_ws r1) as [|c r2]; [discriminate|].
  cbn [List.length] in *.
  destruct (isc "]" c).
  - intros [= _ <-]. lia.
  - destruct (isc "," c); [|discriminate].
    intros H. apply IH in H. pose proof (skip_ws_le r2). lia.
Qed.

Lemma constant_shorter (c : ascii) (w : string) (v : json) (s : text)
  (otherwise : res (json * text)) (x : json) (r : text) :
  (otherwise = Ok (x, r) -> List.length r < List.length s) ->
  constant (String c w) v s otherwise = Ok (x, r) ->
  List.length r < List.length s.
Proof.
  intros Ho. unfold constant. cbn [lit list_ascii_of_string map].
  destruct (strip_prefix _ s) as [r0|] eqn:E; [|exact Ho].
  intros [= _ <-]. exact (strip_prefix_shorter _ _ _ _ E).
Qed.

Lemma scan_once_consuming (depth : nat) : consuming (scan_once max depth).
Proof.
  induction depth as [|d IH]; intros s v r;
    (destruct s as [|c s']; [discriminate|]); cbn [scan_once].
  all: destruct (eqc c dquote);
    [ destruct (scan_string s' []) as [[str r']|e] eqn:K; cbn [rbind];
      [|discriminate];
      apply (scan_string_shorter _ _ _ _ _ (le_n _)) in K;
      intros [= _ <-]; cbn [List.length]; lia |].
  all: destruct (isc "{" c);
    [ try discriminate |].
  2: { unfold parse_object. pose proof (skip_ws_le s') as W.
       destruct (skip_ws s') as [|c0 r0] eqn:E; [discriminate|].
       destruct (isc "}" c0).
       - intros [= _ <-]. cbn [List.length] in *. lia.
       - intros H. apply (parse_members_shorter _ IH) in H.
         cbn [List.length] in *. lia. }
  all: destruct (isc "[" c);
    [ try discriminate |].
  2: { unfold parse_array. pose proof (skip_ws_le s') as W.
       destruct (skip_ws s') as [|c0 r0] eqn:E; [discriminate|].
       destruct (isc "]" c0).
       - intros [= _ <-]. cbn [List.length] in *. lia.
       - intros H. apply (parse_items_shorter _ IH) in H.
         cbn [List.length] in *. lia. }
  all: repeat match goal with
              | |- context [if ?b then _ else _] => destruct b
              end;
    try (apply constant_shorter); apply scan_number_shorter.
Qed.

Lemma parse_members_fuel scan :
  consuming scan ->
  forall n m s acc,
    List.length s < n -> List.length s < m ->
    parse_members scan n s acc = parse_members scan m s acc.
Proof.
  intros Hs. induction n as [|n IH]; intros m s acc Hn Hm; [lia|].
  destruct m as [|m]; [lia|]. cbn [parse_members].
  destruct s as [|c s']; [reflexivity|].
  destruct (eqc c dquote); [|reflexivity].
  destruct (scan_string s' []) as [[key r1]|e] eqn:K; cbn [rbind];
    [|reflexivity].
  apply (scan_string_shorter _ _ _ _ _ (le_n _)) in K.
  pose proof (skip_ws_le r1) as W1.
  destruct (skip_ws r1) as [|c1 r2]; [reflexivity|].
  destruct (isc ":" c1); [|reflexivity].
  pose proof (skip_ws_le r2) as W2.
  destruct (scan (skip_ws r2)) as [[x r3]|e] eqn:V; cbn [rbind];
    [|reflexivity].
  apply Hs in V.
  pose proof (skip_ws_le r3) as W3.
  destruct (skip_ws r3) as [|c2 r4]; [reflexivity|].
  cbn [List.length] in *.
  destruct (isc "}" c2); [reflexivity|].
  destruct (isc "," c2); [|reflexivity].
  pose proof (skip_ws_le r4). apply IH; lia.
Qed.

Lemma parse_items_fuel scan :
  consuming scan ->
  forall n m s acc,
    List.length s < n -> List.length s < m ->
    parse_items scan n s acc = parse_items scan m s acc.
Proof.
  intros Hs. induction n as [|n IH]; intros m s acc Hn Hm; [lia|].
  destruct m as [|m]; [lia|]. cbn [parse_items].
  destruct (scan s) as [[x r1]|e] eqn:V; cbn [rbind]; [|reflexivity].
  apply Hs in V.
  pose proof (skip_ws_le r1) as W1.
  destruct (skip_ws r1) as [|c r2]; [reflexivity|].
  cbn [List.length] in *.
  destruct (isc "]" c); [reflexivity|].
  destruct (isc "," c); [|reflexivity].
  pose proof (skip_ws_le r2). apply IH; lia.
Qed.

(** The fuel the decoder gives its loops is enough: any larger bound decodes
    the same. *)
Lemma object_fuel_enough (depth extra : nat) (s : text) :
  parse_members (scan_once max depth) (S (List.length s) + extra) (skip_ws s) []
  = parse_members (scan_once max depth) (S (List.length s)) (skip_ws s) [].
Proof.
  pose proof (skip_ws_le s).
  apply parse_members_fuel; [apply scan_once_consuming|lia|lia].
Qed.

Lemma array_fuel_enough (depth extra : nat) (s : text) :
  parse_items (scan_once max depth) (S (List.length s) + extra) (skip_ws s) []
  = parse_items (scan_once max depth) (S (List.length s)) (skip_ws s) [].
Proof.
  pose proof (skip_ws_le s).
  apply parse_items_fuel; [apply scan_once_consuming|lia|lia].
Qed.

End Fuel.

(** ** The two reply parsers, by cases on the brace span *)

Section Replies.

Variable w : env.

Lemma first_digit_run_digits (ud : unicode) (s ds : text) :
  first_digit_run ud s = Some ds -> digits ud ds /\ ds <> [].
Proof.
  assert (R : forall r, digits ud (digit_run ud r)).
  { induction r as [|c r IH]; [reflexivity|].
    cbn [digit_run]. destruct (Re.is_digit ud c) eqn:D; [|reflexivity].
    unfold digits. cbn [forallb]. now rewrite D. }
  revert ds. induction s as [|c r IH]; intros ds; [discriminate|].
  cbn [first_digit_run]. destruct (Re.is_digit ud c) eqn:D; [|apply IH].
  intros [= <-]. split; [apply (R (c :: r))|].
  cbn [digit_run]. rewrite D. discriminate.
Qed.

Lemma image_reply_cases (reply : text) :
  image_reply w reply =
  match brace_span reply with
  | Some span =>
      match loads (max_str_digits w) (depth w) span with
      | Ok v => Val v
      | Err Json.RecursionError => Exc World.RecursionError
      | Err _ => Val (image_dict 50 "analysis error" reply)
      end
  | None =>
      match first_digit_run (unicode_db w) reply with
      | Some ds =>
          match py_int (unicode_db w) (max_str_digits w) ds with
          | Some score => Val (image_dict score "unstructured analysis" reply)
          | None => Val (image_dict 50 "analysis error" reply)
          end
      | None => Val (image_dict 50 "unstructured analysis" reply)
      end
  end.
Proof.
  unfold image_reply. rewrite search_json_pat.
  destruct (brace_span reply) as [span|]; cbn [option_map Re.m_whole].
  - destruct (loads _ _ span) as [v|[| |]]; reflexivity.
  - rewrite search_int_pat.
    destruct (first_digit_run (unicode_db w) reply); reflexivity.
Qed.

Lemma score_reply_cases (reply : text) :
  score_reply w reply =
  let caught :=
    match recover_probability w reply with
    | Some p => Val (fallback p reply "analysis error fallback" (Dec 3 (-1)))
    | None => Exc World.ValueError
    end in
  let plain (indicator : string) :=
    match recover_probability w reply with
    | Some p => Val (fallback p reply indicator (Dec 5 (-1)))
    | None => Exc World.ValueError
    end in
  match brace_span reply with
  | Some span =>
      match loads (max_str_digits w) (depth w) span with
      | Ok parsed =>
          match py_in (u "probabilita_percentuale") parsed with
          | Val true => Val parsed
          | Val false => plain "fallback analysis"%string
          | Exc e => Exc e
          end
      | Err Json.RecursionError => Exc World.RecursionError
      | Err _ => caught
      end
  | None => plain "unstructured analysis"%string
  end.
Proof.
  unfold score_reply. rewrite search_json_pat. cbv zeta.
  destruct (brace_span reply) as [span|]; cbn [option_map Re.m_whole].
  - destruct (loads _ _ span) as [v|[| |]]; try reflexivity.
    destruct (py_in _ v) as [[|]|e]; try reflexivity.
    destruct (recover_probability w reply); reflexivity.
  - destruct (recover_probability w reply); reflexivity.
Qed.

Lemma recover_probability_nonneg (s : text) (p : Z) :
  recover_probability w s = Some p -> (0 <= p)%Z.
Proof.
  unfold recover_probability.
  destruct (Re.search _ Re.percent_pat s) as [m|].
  - apply py_int_nonneg.
  - destruct (Re.search _ Re.probability_pat s) as [m|].
    + apply py_int_nonneg.
    + intros [= <-]. lia.
Qed.

Lemma image_reply_dict reply v :
  image_reply w reply = Val v -> exists m, v = JObj m.
Proof.
  rewrite image_reply_cases.
  destruct (brace_span reply) as [span|] eqn:B.
  - destruct (brace_span_head _ _ B) as [r ->].
    destruct (loads _ _ (chr "{" :: r)) as [x|[| |]] eqn:L.
    + intros [= <-]. exact (loads_brace_dict _ _ _ _ L).
    + intros [= <-]. unfold image_dict. eauto.
    + intros [= <-]. unfold image_dict. eauto.
    + discriminate.
  - destruct (first_digit_run _ reply) as [ds|].
    + destruct (py_int _ _ ds); intros [= <-]; unfold image_dict; eauto.
    + intros [= <-]. unfold image_dict. eauto.
Qed.

End Replies.

(** ** The orchestrator never raises: each step returns a value *)

Section Orchestrator.

Variable w : env.
Variable self : agent.

Lemma web_search_run (query : pystr) (max_tokens : nat) (t : list event) :
  let r := Request (search_model self) (SearchPrompt query) max_tokens None in
  web_search w self query max_tokens t =
  (Val match remote w t (client_key self) r with
       | Val c => up c
       | Exc e => u "Error during web search: " ++ str_exn w e
       end,
   t ++ [Chat (client_key self) r]).
Proof.
  cbv zeta. unfold web_search, catch, bind, chat, ret.
  destruct (remote w t (client_key self) _); reflexivity.
Qed.

Lemma search_all_run (queries : list pystr) (t : list event) :
  exists datas,
    search_all w self queries t =
    (Val datas,
     t ++ map (fun q => Chat (client_key self)
                          (Request (search_model self) (SearchPrompt q) 1500 None))
              queries)
    /\ List.length datas = List.length queries.
Proof.
  revert t. induction queries as [|q rest IH]; intros t.
  - exists []. cbn. now rewrite app_nil_r.
  - cbn [search_all]. unfold bind at 1. rewrite web_search_run.
    unfold bind at 1.
    destruct (IH (t ++ [Chat (client_key self)
                          (Request (search_model self) (SearchPrompt q) 1500 None)]))
      as [more [E L]].
    rewrite E. eexists. split.
    + unfold ret. cbn [map]. rewrite <- app_assoc. reflexivity.
    + cbn. now rewrite L.
Qed.

(** What calculate_jewish_probability returns, by the outcome of its one
    request. *)
Lemma calculate_by_call (search_data : pystr) (image_analysis : option json)
  (t : list event) :
  let req := score_request self search_data image_analysis in
  calculate_jewish_probability w self search_data image_analysis t =
  (Val match remote w t (client_key self) req with
       | Val reply =>
           match score_reply w reply with
           | Val v => v
           | Exc e => errore w "Error calculating score: " e
           end
       | Exc e => errore w "Error calculating score: " e
       end,
   t ++ [Chat (client_key self) req]).
Proof.
  cbv zeta. unfold calculate_jewish_probability, catch, bind, chat, lift, ret.
  destruct (remote w t (client_key self) _) as [c|e]; [|reflexivity].
  destruct (score_reply w c); reflexivity.
Qed.

Lemma calculate_run (search_data : pystr) (image_analysis : option json)
  (t : list event) :
  exists v,
    calculate_jewish_probability w self search_data image_analysis t =
    (Val v, t ++ [Chat (client_key self)
                    (score_request self search_data image_analysis)]).
Proof. rewrite calculate_by_call. eauto. Qed.

Lemma send_by_call (person_name url : pystr) (t : list event) :
  let req := vision_request self person_name url in
  catch (result <- chat w (client_key self) req ;;
         lift (image_reply w result))
        (fun e => ret (errore w "Error in image analysis: " e)) t =
  (Val match remote w t (client_key self) req with
       | Val reply =>
           match image_reply w reply with
           | Val v => v
           | Exc e => errore w "Error in image analysis: " e
           end
       | Exc e => errore w "Error in image analysis: " e
       end,
   t ++ [Chat (client_key self) req]).
Proof.
  cbv zeta. unfold catch, bind, chat, lift, ret.
  destruct (remote w t (client_key self) _) as [c|e]; [|reflexivity].
  destruct (image_reply w c); reflexivity.
Qed.

Lemma send_run (person_name url : pystr) (t : list event) :
  exists v,
    catch (result <- chat w (client_key self)
                       (vision_request self person_name url) ;;
           lift (image_reply w result))
          (fun e => ret (errore w "Error in image analysis: " e)) t =
    (Val v, t ++ [Chat (client_key self) (vision_request self person_name url)])
    /\ exists m, v = JObj m.
Proof.
  rewrite send_by_call. eexists. split; [reflexivity|].
  destruct (remote w t (client_key self) _) as [c|e].
  - destruct (image_reply w c) as [v|e] eqn:E.
    + exact (image_reply_dict _ _ _ E).
    + unfold errore. eauto.
  - unfold errore. eauto.
Qed.

(** What analyze_ethnic_image returns when it sends a request, by the
    outcome of that request. *)
Lemma analyze_image_by_call (image_path image_url image_base64 : option pystr)
  (person_name : pystr) (t t' : list event) (req : request) :
  vision_call w self image_path image_url image_base64 person_name t
  = Some (t', req) ->
  analyze_ethnic_image w self image_path image_url image_base64 person_name t =
  (Val match remote w t' (client_key self) req with
       | Val reply =>
           match image_reply w reply with
           | Val v => v
           | Exc e => errore w "Error in image analysis: " e
           end
       | Exc e => errore w "Error in image analysis: " e
       end,
   t' ++ [Chat (client_key self) req]).
Proof.
  unfold vision_call, analyze_ethnic_image.
  destruct (supplied image_path).
  - destruct (read_b64 w t (get image_path)) as [b|e] eqn:R; [|discriminate].
    intros [= <- <-].
    unfold catch, bind, encode_image, read_file, chat, lift, ret. rewrite R.
    destruct (remote w _ (client_key self) _) as [c|e]; [|reflexivity].
    destruct (image_reply w c); reflexivity.
  - destruct (supplied image_base64).
    + intros [= <- <-]. apply send_by_call.
    + destruct (supplied image_url); [|discriminate].
      intros [= <- <-]. apply send_by_call.
Qed.

(** When it sends no request: the path could not be read, or no image was
    supplied. *)
Lemma analyze_image_no_call (image_path image_url image_base64 : option pystr)
  (person_name : pystr) (t : list event) :
  vision_call w self image_path image_url image_base64 person_name t = None ->
  analyze_ethnic_image w self image_path image_url image_base64 person_name t =
  if supplied image_path then
    (Val match read_b64 w t (get image_path) with
         | Val _ => JNull
         | Exc e => errore w "Error in image analysis: " e
         end,
     t ++ [ReadFile (get image_path)])
  else (Val (JObj [(u "errore", JStr (u "No image provided"))]), t).
Proof.
  unfold vision_call, analyze_ethnic_image.
  destruct (supplied image_path).
  - destruct (read_b64 w t (get image_path)) as [b|e] eqn:R; [discriminate|].
    intros _. unfold catch, bind, encode_image, read_file. rewrite R.
    reflexivity.
  - destruct (supplied image_base64); [discriminate|].
    destruct (supplied image_url); [discriminate|]. reflexivity.
Qed.

Lemma analyze_image_run (image_path image_url image_base64 : option pystr)
  (person_name : pystr) (t : list event) :
  exists v t',
    analyze_ethnic_image w self image_path image_url image_base64 person_name t
    = (Val v, t') /\ exists m, v = JObj m.
Proof.
  unfold analyze_ethnic_image.
  destruct (supplied image_path).
  - unfold catch, bind at 1, encode_image, read_file.
    destruct (read_b64 w t (get image_path)) as [b|e].
    + destruct (send_run person_name (u "data:image/jpeg;base64," ++ b)
                  (t ++ [ReadFile (get image_path)])) as [v [E D]].
      unfold catch in E.
      destruct ((result <- chat w (client_key self) _ ;; _) _) as [[x|e] t'];
        inversion E; subst; eauto.
    + unfold ret, errore. eauto 6.
  - destruct (supplied image_base64).
    + destruct (send_run person_name
                  (u "data:image/jpeg;base64," ++ get image_base64) t)
        as [v [E D]]. eauto.
    + destruct (supplied image_url).
      * destruct (send_run person_name (get image_url) t) as [v [E D]]. eauto.
      * unfold catch, ret. eauto 6.
Qed.

Lemma analyze_person_run (nome cognome : pystr)
  (image_path image_url image_base64 : option pystr) (t : list event) :
  let full_name := strip (nome ++ u " " ++ cognome) in
  let newlines := u (String "010" (String "010" "")) in
  let t1 :=
    t ++ map (fun q => Chat (client_key self)
                         (Request (search_model self) (SearchPrompt q) 1500 None))
             (search_queries full_name) in
  exists datas ia final t2,
    search_all w self (search_queries full_name) t = (Val datas, t1)
    /\ (if supplied image_path || supplied image_url || supplied image_base64
        then exists v,
            analyze_ethnic_image w self image_path image_url image_base64
              full_name t1 = (Val v, t2) /\ ia = Some v
        else ia = None /\ t2 = t1)
    /\ calculate_jewish_probability w self (join newlines datas) ia t2
       = (Val final,
          t2 ++ [Chat (client_key self)
                   (score_request self (join newlines datas) ia)])
    /\ analyze_person_jewish_identity w self nome cognome
         image_path image_url image_base64 t
       = (Val (JObj [(u "persona", JStr full_name);
                     (u "timestamp", JStr (u "2025-09-22"));
                     (u "dati_ricerca", JStr (dati_ricerca (join newlines datas)));
                     (u "analisi_immagine",
                      match ia with Some v => v | None => JNull end);
                     (u "risultato_finale", final)]),
          t2 ++ [Chat (client_key self)
                   (score_request self (join newlines datas) ia)]).
Proof.
  intros full_name newlines t1.
  destruct (search_all_run (search_queries full_name) t) as [datas [E _]].
  fold t1 in E.
  unfold analyze_person_jewish_identity. fold full_name. fold newlines.
  unfold bind at 1. rewrite E.
  destruct (supplied image_path || supplied image_url || supplied image_base64)
    eqn:S.
  - destruct (analyze_image_run image_path image_url image_base64 full_name t1)
      as [v [t2 [A _]]].
    destruct (calculate_run (join newlines datas) (Some v) t2) as [final C].
    exists datas, (Some v), final, t2.
    split; [reflexivity|]. split; [eauto|]. split; [exact C|].
    unfold bind at 1. unfold bind at 1. rewrite A. unfold ret at 1.
    unfold bind at 1. rewrite C. reflexivity.
  - destruct (calculate_run (join newlines datas) None t1) as [final C].
    exists datas, None, final, t1.
    split; [reflexivity|]. split; [eauto|]. split; [exact C|].
    unfold bind at 1. unfold ret at 1. unfold bind at 1. rewrite C.
    reflexivity.
Qed.

End Orchestrator.

(** * The claims *)

Ltac not_in := let H := fresh in intros H; cbn in H; intuition discriminate.

Section Claim1.

(** C1, as stated, fails: the reply holds the well-formed object
    [{"punteggio_immagine": 73}] inside prose, and the prose has braces of
    its own after it.  The pattern runs from the first opening brace to the
    last closing brace of the whole reply, that text does not decode, and
    analyze_ethnic_image returns the score-50 fallback instead of the
    object. *)
Lemma braces_in_prose_defeat_extraction :
  let obj := dq "{'punteggio_immagine': 73}" in
  let reply := lit "Result: " ++ obj ++ lit " (see {notes})" in
  loads 4300 900 obj = Ok (JObj [(u "punteggio_immagine", JInt 73)])
  /\ fst (analyze_ethnic_image (w_reply reply) a0 None None inline jane [])
     = Val (image_dict 50 "analysis error" reply)
  /\ fst (analyze_ethnic_image (w_reply reply) a0 None None inline jane [])
     <> Val (JObj [(u "punteggio_immagine", JInt 73)]).
Proof.
  vm_compute. split; [reflexivity|]. split; [reflexivity|discriminate].
Qed.

(** C1, amended: analyze_ethnic_image takes the text from the first opening
    brace to the last closing brace of the reply to the request it sent,
    decodes it and returns the decoded value; so an object embedded in prose
    that has no opening brace before it and no closing brace after it is
    returned exactly.  calculate_jewish_probability does the same with the
    reply to its request when the object has the key
    probabilita_percentuale. *)
Theorem first_to_last_brace_extraction
  (w : env) (self : agent) (image_path image_url image_base64 : option pystr)
  (person_name search_data : pystr) (image_analysis : option json)
  (pre mid post : text) (v : json) (t : list event) :
  ~ In (chr "{") pre -> ~ In (chr "}") post ->
  loads (max_str_digits w) (depth w) (chr "{" :: mid ++ [chr "}"]) = Ok v ->
  let reply := pre ++ chr "{" :: mid ++ chr "}" :: post in
  (forall t' req,
      vision_call w self image_path image_url image_base64 person_name t
      = Some (t', req) ->
      remote w t' (client_key self) req = Val reply ->
      analyze_ethnic_image w self image_path image_url image_base64
        person_name t
      = (Val v, t' ++ [Chat (client_key self) req]))
  /\ (remote w t (client_key self)
        (score_request self search_data image_analysis) = Val reply ->
      py_in (u "probabilita_percentuale") v = Val true ->
      calculate_jewish_probability w self search_data image_analysis t
      = (Val v,
         t ++ [Chat (client_key self)
                 (score_request self search_data image_analysis)])).
Proof.
  intros Hpre Hpost Hl reply. split.
  - intros t' req Hc Hr.
    rewrite (analyze_image_by_call w self _ _ _ _ _ _ _ Hc), Hr.
    rewrite image_reply_cases. subst reply.
    rewrite (brace_span_app pre mid post Hpre Hpost), Hl. reflexivity.
  - intros Hr Hk. rewrite calculate_by_call, Hr.
    rewrite score_reply_cases. subst reply. cbv zeta.
    rewrite (brace_span_app pre mid post Hpre Hpost), Hl, Hk. reflexivity.
Qed.

Lemma first_to_last_brace_extraction_witness :
  let reply := lit "Result: " ++ dq "{'punteggio_immagine': 73}"
               ++ lit " as asked." in
  analyze_ethnic_image (w_reply reply) a0 None None inline jane []
  = (Val (JObj [(u "punteggio_immagine", JInt 73)]),
     [Chat (client_key a0)
        (vision_request a0 jane (u "data:image/jpeg;base64,QUJD"))]).
Proof.
  refine (proj1 (first_to_last_brace_extraction
                   (w_reply _) a0 None None inline jane [] None
                   (lit "Result: ") (dq "'punteggio_immagine': 73")
                   (lit " as asked.") _ [] _ _ _) [] _ _ _).
  - not_in.
  - not_in.
  - vm_compute. reflexivity.
  - reflexivity.
  - reflexivity.
Defined.

End Claim1.

Section Claim2.

(** C2, as stated, fails: with both a local path and inline base64 supplied,
    the file is read and its content is what the request carries, where the
    order of the claim (inline base64 first) would attach the inline data. *)
Lemma local_path_beats_inline_base64 :
  let path := Some (u "photo.jpg") in
  snd (analyze_ethnic_image (w_reply (lit "around 65")) a0 path None inline
         jane [])
  = [ReadFile (u "photo.jpg");
     Chat (u "sk-test")
          (vision_request a0 jane (u "data:image/jpeg;base64,RklMRQ=="))]
  /\ spec_priority_url (u "RklMRQ==") path None inline
     = Some (u "data:image/jpeg;base64,QUJD")
  /\ u "data:image/jpeg;base64,RklMRQ==" <> u "data:image/jpeg;base64,QUJD".
Proof.
  vm_compute. split; [reflexivity|]. split; [reflexivity|discriminate].
Qed.

(** C2, amended: the image attached to the prompt is chosen in the order
    local path, then inline base64, then remote URL (a path is read from the
    file system first, and no request is sent when the read fails); when
    none of the three is supplied, analyze_ethnic_image returns the error
    value "No image provided" and contacts nothing. *)
Theorem image_source_priority
  (w : env) (self : agent) (image_path image_url image_base64 : option pystr)
  (person_name : pystr) (t : list event) :
  let ask url := Chat (client_key self) (vision_request self person_name url) in
  snd (analyze_ethnic_image w self image_path image_url image_base64
         person_name t)
  = t ++ (if supplied image_path then
            ReadFile (get image_path)
            :: match read_b64 w t (get image_path) with
               | Val b => [ask (u "data:image/jpeg;base64," ++ b)]
               | Exc _ => []
               end
          else if supplied image_base64 then
            [ask (u "data:image/jpeg;base64," ++ get image_base64)]
          else if supplied image_url then [ask (get image_url)]
          else [])
  /\ (supplied image_path || supplied image_base64 || supplied image_url = false ->
      analyze_ethnic_image w self image_path image_url image_base64
        person_name t
      = (Val (JObj [(u "errore", JStr (u "No image provided"))]), t)).
Proof.
  intros ask. unfold analyze_ethnic_image.
  destruct (supplied image_path); [|destruct (supplied image_base64);
                                    [|destruct (supplied image_url)]];
    cbn [orb]; (split; [|try discriminate]).
  - unfold catch, bind, encode_image, read_file, chat, lift, ret.
    destruct (read_b64 w t (get image_path)) as [b|e]; cbn [fst snd].
    + destruct (remote w _ _ _) as [c|e]; [destruct (image_reply _ c)|];
        cbn [snd]; rewrite <- app_assoc; reflexivity.
    + reflexivity.
  - unfold catch, bind, chat, lift, ret.
    destruct (remote w _ _ _) as [c|e]; [destruct (image_reply _ c)|];
      reflexivity.
  - unfold catch, bind, chat, lift, ret.
    destruct (remote w _ _ _) as [c|e]; [destruct (image_reply _ c)|];
      reflexivity.
  - unfold catch, ret. cbn [snd]. now rewrite app_nil_r.
  - reflexivity.
Qed.

Lemma image_source_priority_witness :
  analyze_ethnic_image (w_reply (lit "around 65")) a0 None (Some []) None jane []
  = (Val (JObj [(u "errore", JStr (u "No image provided"))]), []).
Proof.
  refine (proj2 (image_source_priority (w_reply (lit "around 65")) a0
                   None (Some []) None jane []) _).
  reflexivity.
Defined.

End Claim2.

Section Claim3.

(** C3, as stated, fails: the reply has no decodable object (its brace span
    is malformed) and its first integer is 65, yet the score returned is 50:
    a malformed span goes to the fixed-score branch, which does not look for
    an integer. *)
Lemma malformed_span_ignores_integer :
  let reply := lit "I would say around 65 {not json}" in
  first_digit_run sample_unicode reply = Some (lit "65")
  /\ brace_span reply = Some (lit "{not json}")
  /\ loads 4300 900 (lit "{not json}") = Err DecodeError
  /\ fst (analyze_ethnic_image (w_reply reply) a0 None None inline jane [])
     = Val (image_dict 50 "analysis error" reply)
  /\ field (image_dict 50 "analysis error" reply) "punteggio_immagine"
     = Some (JInt 50).
Proof. vm_compute. repeat split; reflexivity. Qed.

(** C3, amended: let reply be the reply to the request analyze_ethnic_image
    sent.  When the reply has no brace span (no opening brace followed by a
    closing one), the score is the integer written by the first run of
    decimal digits of the reply (any Unicode decimal digits), with the
    indicator list ["unstructured analysis"]; it is 50 with the same
    indicator when the reply has no digit, and 50 with the indicator
    ["analysis error"] when that run has more digits than the interpreter
    converts.  When the reply has a brace span that does not decode, the
    score is 50 whatever integers the reply holds, with the indicator list
    ["analysis error"].  In all these cases the explanation is the first 200
    characters of the raw reply. *)
Theorem image_fallback_tiers
  (w : env) (self : agent) (image_path image_url image_base64 : option pystr)
  (person_name : pystr) (reply : text) (t t' : list event) (req : request) :
  vision_call w self image_path image_url image_base64 person_name t
  = Some (t', req) ->
  remote w t' (client_key self) req = Val reply ->
  let result :=
    fst (analyze_ethnic_image w self image_path image_url image_base64
           person_name t) in
  let assessment score indicator :=
    JObj [(u "punteggio_immagine", JInt score);
          (u "indicatori_visivi", JArr [JStr (u indicator)]);
          (u "spiegazione", JStr (up (firstn 200 reply)))] in
  (brace_span reply = None ->
   match first_digit_run (unicode_db w) reply with
   | Some ds =>
       if too_long (max_str_digits w) (List.length ds)
       then result = Val (assessment 50%Z "analysis error"%string)
       else exists n,
           py_int (unicode_db w) (max_str_digits w) ds = Some n
           /\ result = Val (assessment n "unstructured analysis"%string)
   | None => result = Val (assessment 50%Z "unstructured analysis"%string)
   end)
  /\ (forall span, brace_span reply = Some span ->
      loads (max_str_digits w) (depth w) span = Err DecodeError
      \/ loads (max_str_digits w) (depth w) span = Err Json.ValueError ->
      result = Val (assessment 50%Z "analysis error"%string)).
Proof.
  intros Hc Hr result assessment. subst result.
  rewrite (analyze_image_by_call w self _ _ _ _ _ _ _ Hc), Hr.
  rewrite image_reply_cases. cbn [fst]. split.
  - intros ->. destruct (first_digit_run (unicode_db w) reply) as [ds|] eqn:F;
      [|reflexivity].
    destruct (first_digit_run_digits _ _ _ F) as [Hd Hne].
    destruct (too_long (max_str_digits w) (List.length ds)) eqn:L.
    + rewrite (py_int_too_long _ _ _ L). reflexivity.
    + destruct (py_int_some (unicode_db w) _ _ Hd Hne L) as [n N].
      exists n. split; [exact N|]. rewrite N. reflexivity.
  - intros span -> [-> | ->]; reflexivity.
Qed.

Lemma image_fallback_tiers_witness :
  exists n,
    py_int sample_unicode 4300 (lit "65") = Some n
    /\ fst (analyze_ethnic_image (w_reply (lit "I would say around 65")) a0
              None None inline jane [])
       = Val (JObj [(u "punteggio_immagine", JInt n);
                    (u "indicatori_visivi",
                     JArr [JStr (u "unstructured analysis")]);
                    (u "spiegazione", JStr (u "I would say around 65"))]).
Proof.
  refine (proj1 (image_fallback_tiers (w_reply (lit "I would say around 65")) a0
                   None None inline jane (lit "I would say around 65") [] [] _
                   _ _) _).
  - reflexivity.
  - reflexivity.
  - vm_compute. reflexivity.
Defined.

End Claim3.

Section Claim4.

(** C4, as stated, fails in its last part.  A reply with no JSON at all
    that contains "78%" after an earlier percentage yields the earlier one:
    probability 12, category "bassa".  A reply that contains "78%" and a
    brace span that does not decode yields confidence 0.3, the
    parse-exception branch, not 0.5. *)
Lemma first_percentage_and_malformed_span :
  let earlier := lit "between 12% and 78%" in
  let braces := lit "About 78% {not json}" in
  brace_span earlier = None
  /\ fst (calculate_jewish_probability (w_reply earlier) a0 [] None [])
     = Val (JObj [(u "probabilita_percentuale", JInt 12);
                  (u "categoria", JStr (u "bassa"));
                  (u "indicatori_principali",
                   JArr [JStr (u "unstructured analysis")]);
                  (u "spiegazione", JStr (up earlier));
                  (u "confidenza", JFloat (Dec 5 (-1)))])
  /\ brace_span braces = Some (lit "{not json}")
  /\ loads 4300 900 (lit "{not json}") = Err DecodeError
  /\ fst (calculate_jewish_probability (w_reply braces) a0 [] None [])
     = Val (JObj [(u "probabilita_percentuale", JInt 78);
                  (u "categoria", JStr (u "moderata"));
                  (u "indicatori_principali",
                   JArr [JStr (u "analysis error fallback")]);
                  (u "spiegazione", JStr (up braces));
                  (u "confidenza", JFloat (Dec 3 (-1)))]).
Proof. vm_compute. repeat split; reflexivity. Qed.

(** C4, amended: let reply be the reply to the scoring request.  In every
    fallback branch of calculate_jewish_probability in which a probability
    is recovered from the raw reply, that probability is returned, the
    category is "moderata" exactly when it is greater than 40 and "bassa"
    otherwise, and the confidence is 0.5 when the reply has no brace span or
    its span decodes to a value without the probability key, and 0.3 when
    the span does not decode; when the number found has more digits than the
    interpreter converts, an error object is returned instead.  In
    particular a reply without a brace span in which "78%" is the first
    percentage (no percent sign before it, and no digit just before it)
    yields probability 78, category "moderata", confidence 0.5. *)
Theorem score_fallback_tiers
  (w : env) (self : agent) (search_data : pystr) (image_analysis : option json)
  (reply : text) (t : list event) :
  remote w t (client_key self) (score_request self search_data image_analysis)
  = Val reply ->
  let result :=
    fst (calculate_jewish_probability w self search_data image_analysis t) in
  let returns (p : Z) (conf : decimal) :=
    exists v,
      result = Val v
      /\ field v "probabilita_percentuale" = Some (JInt p)
      /\ field v "categoria"
         = Some (JStr (if (40 <? p)%Z then u "moderata" else u "bassa"))
      /\ field v "confidenza" = Some (JFloat conf) in
  let outcome (conf : decimal) :=
    match recover_probability w reply with
    | Some p => returns p conf
    | None =>
        result = Val (JObj [(u "errore",
                             JStr (u "Error calculating score: "
                                   ++ str_exn w World.ValueError))])
    end in
  (brace_span reply = None -> outcome (Dec 5 (-1)))
  /\ (forall span parsed,
      brace_span reply = Some span ->
      loads (max_str_digits w) (depth w) span = Ok parsed ->
      py_in (u "probabilita_percentuale") parsed = Val false ->
      outcome (Dec 5 (-1)))
  /\ (forall span,
      brace_span reply = Some span ->
      loads (max_str_digits w) (depth w) span = Err DecodeError
      \/ loads (max_str_digits w) (depth w) span = Err Json.ValueError ->
      outcome (Dec 3 (-1)))
  /\ (forall pre post,
      reply = pre ++ lit "78" ++ chr "%" :: post ->
      brace_span reply = None -> ~ In (chr "%") pre ->
      ends_in_digit (unicode_db w) pre = false ->
      exists v,
        result = Val v
        /\ field v "probabilita_percentuale" = Some (JInt 78)
        /\ field v "categoria" = Some (JStr (u "moderata"))
        /\ field v "confidenza" = Some (JFloat (Dec 5 (-1)))).
Proof.
  intros Hr result returns outcome.
  assert (E : result = Val match score_reply w reply with
                           | Val v => v
                           | Exc e => errore w "Error calculating score: " e
                           end).
  { subst result. now rewrite calculate_by_call, Hr. }
  rewrite score_reply_cases in E. cbv zeta in E.
  assert (F : forall ind conf,
             result = Val match
                 match recover_probability w reply with
                 | Some p => Val (fallback p reply ind conf)
                 | None => Exc World.ValueError
                 end
               with
               | Val v => v
               | Exc e => errore w "Error calculating score: " e
               end ->
             outcome conf).
  { intros ind conf R. unfold outcome.
    destruct (recover_probability w reply) as [p|].
    - exists (fallback p reply ind conf).
      split; [exact R|]. repeat split; reflexivity.
    - exact R. }
  split; [|split; [|split]].
  - intros B. rewrite B in E. exact (F _ _ E).
  - intros span parsed B L K. rewrite B, L, K in E. exact (F _ _ E).
  - intros span B [L|L]; rewrite B, L in E; exact (F _ _ E).
  - intros pre post R B Hin Hend.
    assert (P : recover_probability w reply = Some 78%Z).
    { unfold recover_probability. rewrite R.
      rewrite (search_percent_app (unicode_db w) pre (lit "78") post Hin Hend);
        [reflexivity|discriminate|reflexivity|reflexivity]. }
    rewrite B in E. pose proof (F _ _ E) as O. unfold outcome in O.
    rewrite P in O. exact O.
Qed.

Lemma score_fallback_tiers_witness :
  exists v,
    fst (calculate_jewish_probability (w_reply (lit "I estimate 78% overall"))
           a0 [] None []) = Val v
    /\ field v "probabilita_percentuale" = Some (JInt 78)
    /\ field v "categoria" = Some (JStr (u "moderata"))
    /\ field v "confidenza" = Some (JFloat (Dec 5 (-1))).
Proof.
  refine (proj2 (proj2 (proj2
            (score_fallback_tiers (w_reply (lit "I estimate 78% overall")) a0
               [] None (lit "I estimate 78% overall") [] _)))
            (lit "I estimate ") (lit " overall") _ _ _ _).
  - reflexivity.
  - reflexivity.
  - reflexivity.
  - not_in.
  - reflexivity.
Defined.

End Claim4.

Section Claim5.

(** C5, as stated, fails: neither function bounds what it returns.  A reply
    without braces whose first integer is 250 gives the image score 250; a
    scoring reply whose object holds probability 250 and confidence 7.5
    (the decimal 75 * 10 ^ -1) is returned as it is. *)
Lemma scores_are_not_bounded :
  let image_text := lit "about 250 points" in
  let score_text := dq "{'probabilita_percentuale': 250, 'confidenza': 7.5}" in
  fst (analyze_ethnic_image (w_reply image_text) a0 None None inline jane [])
  = Val (image_dict 250 "unstructured analysis" image_text)
  /\ fst (calculate_jewish_probability (w_reply score_text) a0 [] None [])
     = Val (JObj [(u "probabilita_percentuale", JInt 250);
                  (u "confidenza", JFloat (Dec 75 (-1)))])
  /\ (100 < 250)%Z.
Proof. vm_compute. repeat split; reflexivity. Qed.

(** C5, amended: the value analyze_ethnic_image returns on the reply to the
    request it sent is the value decoded from the reply's brace span,
    unchanged (its fields are whatever the reply holds), or a fallback whose
    score is an integer that is not negative (it is not bounded by 100), or
    an error object; the value calculate_jewish_probability returns on the
    reply to its request is the decoded value unchanged, or a fallback whose
    probability is an integer that is not negative (not bounded by 100) and
    whose confidence is 0.5 or 0.3, or an error object. *)
Theorem assessment_ranges
  (w : env) (self : agent) (image_path image_url image_base64 : option pystr)
  (person_name search_data : pystr) (image_analysis : option json)
  (t : list event) :
  (forall t' req reply,
      vision_call w self image_path image_url image_base64 person_name t
      = Some (t', req) ->
      remote w t' (client_key self) req = Val reply ->
      exists v,
        fst (analyze_ethnic_image w self image_path image_url image_base64
               person_name t) = Val v
        /\ ((exists span, brace_span reply = Some span
                          /\ loads (max_str_digits w) (depth w) span = Ok v)
            \/ (exists n, field v "punteggio_immagine" = Some (JInt n)
                          /\ (0 <= n)%Z)
            \/ (exists msg, v = JObj [(u "errore", JStr msg)])))
  /\ (forall reply,
        remote w t (client_key self)
          (score_request self search_data image_analysis) = Val reply ->
        exists v,
          fst (calculate_jewish_probability w self search_data image_analysis t)
          = Val v
          /\ ((exists span, brace_span reply = Some span
                            /\ loads (max_str_digits w) (depth w) span = Ok v)
              \/ (exists n c,
                     field v "probabilita_percentuale" = Some (JInt n)
                     /\ (0 <= n)%Z
                     /\ field v "confidenza" = Some (JFloat c)
                     /\ (c = Dec 5 (-1) \/ c = Dec 3 (-1)))
              \/ (exists msg, v = JObj [(u "errore", JStr msg)]))).
Proof.
  split.
  - intros t' req reply Hc Hr.
    rewrite (analyze_image_by_call w self _ _ _ _ _ _ _ Hc), Hr.
    rewrite image_reply_cases. cbn [fst]. eexists. split; [reflexivity|].
    destruct (brace_span reply) as [span|] eqn:B.
    + destruct (loads _ _ span) as [v|[| |]] eqn:L.
      * left. eauto.
      * right. left. exists 50%Z. split; [reflexivity|lia].
      * right. left. exists 50%Z. split; [reflexivity|lia].
      * right. right. unfold errore. eauto.
    + right. left.
      destruct (first_digit_run (unicode_db w) reply) as [ds|];
        [|exists 50%Z; split; [reflexivity|lia]].
      destruct (py_int _ _ ds) as [n|] eqn:N.
      * exists n. split; [reflexivity|]. exact (py_int_nonneg _ _ _ _ N).
      * exists 50%Z. split; [reflexivity|lia].
  - intros reply Hr. rewrite calculate_by_call, Hr.
    rewrite score_reply_cases. cbv zeta. cbn [fst].
    eexists. split; [reflexivity|].
    assert (F : forall ind c, c = Dec 5 (-1) \/ c = Dec 3 (-1) ->
               let v := match
                            match recover_probability w reply with
                            | Some p => Val (fallback p reply ind c)
                            | None => Exc World.ValueError
                            end
                          with
                          | Val v => v
                          | Exc e => errore w "Error calculating score: " e
                          end in
               (exists n c',
                   field v "probabilita_percentuale" = Some (JInt n)
                   /\ (0 <= n)%Z
                   /\ field v "confidenza" = Some (JFloat c')
                   /\ (c' = Dec 5 (-1) \/ c' = Dec 3 (-1)))
               \/ (exists msg, v = JObj [(u "errore", JStr msg)])).
    { intros ind c Hc. cbv zeta.
      destruct (recover_probability w reply) as [p|] eqn:P.
      - left. exists p, c. split; [reflexivity|].
        split; [exact (recover_probability_nonneg _ _ _ P)|].
        split; [reflexivity|exact Hc].
      - right. unfold errore. eauto. }
    destruct (brace_span reply) as [span|] eqn:B.
    + destruct (loads _ _ span) as [v|[| |]] eqn:L.
      * destruct (py_in (u "probabilita_percentuale") v) as [[|]|e] eqn:K.
        -- left. eauto.
        -- right. apply F. now left.
        -- right. right. unfold errore. eauto.
      * right. apply F. now right.
      * right. apply F. now right.
      * right. right. unfold errore. eauto.
    + right. apply F. now left.
Qed.

Lemma assessment_ranges_witness :
  exists v,
    fst (analyze_ethnic_image (w_reply (lit "about 250 points")) a0
           None None inline jane []) = Val v
    /\ ((exists span, brace_span (lit "about 250 points") = Some span
                      /\ loads 4300 900 span = Ok v)
        \/ (exists n, field v "punteggio_immagine" = Some (JInt n)
                      /\ (0 <= n)%Z)
        \/ (exists msg, v = JObj [(u "errore", JStr msg)])).
Proof.
  refine (proj1 (assessment_ranges (w_reply (lit "about 250 points")) a0
                   None None inline jane [] None [])
            [] _ (lit "about 250 points") _ _).
  - reflexivity.
  - reflexivity.
Defined.

End Claim5.

Section Claim6.

(** C6: whatever the three searches return, the key dati_ricerca of the
    result holds their concatenation unmodified when it has at most 500
    characters, and its first 500 characters followed by "..." (503
    characters in all) when it has more. *)
Theorem search_excerpt
  (w : env) (self : agent) (nome cognome : pystr)
  (image_path image_url image_base64 : option pystr) (t : list event) :
  exists r t' datas t1,
    analyze_person_jewish_identity w self nome cognome
      image_path image_url image_base64 t = (Val r, t')
    /\ search_all w self (search_queries (strip (nome ++ u " " ++ cognome))) t
       = (Val datas, t1)
    /\ let combined := join (u (String "010" (String "010" ""))) datas in
       (List.length combined <= 500 ->
        field r "dati_ricerca" = Some (JStr combined))
       /\ (500 < List.length combined ->
           field r "dati_ricerca"
           = Some (JStr (firstn 500 combined ++ u "..."))
           /\ List.length (firstn 500 combined ++ u "...") = 503).
Proof.
  destruct (analyze_person_run w self nome cognome image_path image_url
              image_base64 t) as [datas [ia [final [t2 [S [_ [_ R]]]]]]].
  eexists _, _, datas, _. split; [exact R|]. split; [exact S|].
  cbv zeta. change (field (JObj ?d) "dati_ricerca")
    with (Some (JStr (dati_ricerca
                        (join (u (String "010" (String "010" ""))) datas)))).
  unfold dati_ricerca. split; intros H.
  - destruct (Nat.ltb_spec 500 (List.length
                (join (u (String "010" (String "010" ""))) datas)));
      [lia|reflexivity].
  - destruct (Nat.ltb_spec 500 (List.length
                (join (u (String "010" (String "010" ""))) datas))); [|lia].
    split; [reflexivity|].
    rewrite length_app, firstn_length_le by lia. reflexivity.
Qed.

End Claim6.

Section Claim7.

(** C7, as stated, fails: the bodies [[]] and [null] and the empty body hold
    neither firstName nor lastName, and the handler answers each of them
    with status 500, not 400: a body that is not a JSON object never reaches
    the check of the names. *)
Lemma body_without_names_is_500 :
  let w := w_reply (lit "around 65") in
  let failed := send_error 500 (u "Analysis failed: error") in
  loads 4300 900 (lit "[]") = Ok (JArr [])
  /\ do_POST w (lit "[]") [] = (failed, [])
  /\ loads 4300 900 (lit "null") = Ok JNull
  /\ do_POST w (lit "null") [] = (failed, [])
  /\ loads 4300 900 [] = Err DecodeError
  /\ do_POST w [] [] = (failed, [])
  /\ failed <> send_error 400 (u "First name and last name are required").
Proof. vm_compute. repeat split; try reflexivity. discriminate. Qed.

(** C7, amended: when the body of the POST decodes to a JSON object in which
    firstName or lastName is missing (absent, or a value Python takes for
    false), the handler answers 400 with an error object; when the body does
    not decode to a JSON object (it is another JSON value, or not JSON, or
    holds an integer literal too long to convert), the handler answers 500
    with an error object.  In both cases the list of outside events is left
    as it was: no model was called. *)
Theorem missing_name_status
  (w : env) (post_data : text) (t : list event) :
  (forall d,
      loads (max_str_digits w) (depth w) post_data = Ok (JObj d) ->
      missing d "firstName" \/ missing d "lastName" ->
      do_POST w post_data t
      = ([Head 400;
          Payload (JObj [(u "error",
                          JStr (u "First name and last name are required"))])],
         t))
  /\ ((forall d, loads (max_str_digits w) (depth w) post_data <> Ok (JObj d)) ->
      exists e,
        do_POST w post_data t
        = ([Head 500;
            Payload (JObj [(u "error",
                            JStr (u "Analysis failed: " ++ str_exn w e))])],
           t)).
Proof.
  split.
  - intros d L M. unfold do_POST. rewrite L.
    unfold of_decode, py_get, lift, bind, ret, send_error.
    assert (E : negb (truthy match dict_get d (u "firstName") with
                             | Some v => v
                             | None => JStr []
                             end)
                || negb (truthy match dict_get d (u "lastName") with
                                | Some v => v
                                | None => JStr []
                                end) = true).
    { unfold missing in M. apply orb_true_iff.
      destruct M as [M|M]; [left|right].
      - destruct (dict_get d (u "firstName")); [now rewrite M|reflexivity].
      - destruct (dict_get d (u "lastName")); [now rewrite M|reflexivity]. }
    rewrite E. reflexivity.
  - intros N. unfold do_POST.
    destruct (loads (max_str_digits w) (depth w) post_data) as [v|e] eqn:L.
    + destruct v; try (exists AttributeError; reflexivity).
      exfalso. exact (N _ eq_refl).
    + destruct e; eexists; reflexivity.
Qed.

Lemma missing_name_status_witness :
  do_POST (w_reply (lit "around 65")) (dq "{'firstName': 'Jane'}") []
  = ([Head 400;
      Payload (JObj [(u "error",
                      JStr (u "First name and last name are required"))])],
     []).
Proof.
  refine (proj1 (missing_name_status (w_reply (lit "around 65"))
                   (dq "{'firstName': 'Jane'}") [])
            [(u "firstName", JStr (u "Jane"))] _ _).
  - vm_compute. reflexivity.
  - right. exact I.
Defined.

End Claim7.

Section Claim8.

(** C8: web_search and analyze_ethnic_image always return a value, never an
    exception; when the request web_search sends fails with an exception e,
    web_search returns the text "Error during web search: " followed by
    str(e); when the request analyze_ethnic_image sends fails with e,
    analyze_ethnic_image returns the object {"errore": "Error in image
    analysis: " + str(e)}. *)
Theorem remote_failures_are_values
  (w : env) (self : agent) (query : pystr) (max_tokens : nat)
  (image_path image_url image_base64 : option pystr) (person_name : pystr)
  (t : list event) :
  (exists s, fst (web_search w self query max_tokens t) = Val s)
  /\ (exists v, fst (analyze_ethnic_image w self image_path image_url
                       image_base64 person_name t) = Val v)
  /\ (forall e,
        remote w t (client_key self)
          (Request (search_model self) (SearchPrompt query) max_tokens None)
        = Exc e ->
        fst (web_search w self query max_tokens t)
        = Val (u "Error during web search: " ++ str_exn w e))
  /\ (forall t' req e,
        vision_call w self image_path image_url image_base64 person_name t
        = Some (t', req) ->
        remote w t' (client_key self) req = Exc e ->
        fst (analyze_ethnic_image w self image_path image_url image_base64
               person_name t)
        = Val (JObj [(u "errore",
                      JStr (u "Error in image analysis: " ++ str_exn w e))])).
Proof.
  split; [|split; [|split]].
  - rewrite web_search_run. cbn [fst]. eauto.
  - destruct (analyze_image_run w self image_path image_url image_base64
                person_name t) as [v [t' [E _]]].
    exists v. now rewrite E.
  - intros e He. rewrite web_search_run. cbn [fst]. now rewrite He.
  - intros t' req e Hc He.
    rewrite (analyze_image_by_call w self _ _ _ _ _ _ _ Hc), He. reflexivity.
Qed.

Lemma remote_failures_are_values_witness :
  fst (web_search (w_fail "timeout") a0 jane 1500 [])
  = Val (u "Error during web search: timeout")
  /\ fst (analyze_ethnic_image (w_fail "timeout") a0 None None inline jane [])
     = Val (JObj [(u "errore", JStr (u "Error in image analysis: timeout"))]).
Proof.
  destruct (proj2 (proj2 (remote_failures_are_values (w_fail "timeout") a0
                            jane 1500 None None inline jane []))) as [S A].
  split.
  - exact (S (Raised (u "timeout")) eq_refl).
  - exact (A [] _ (Raised (u "timeout")) eq_refl eq_refl).
Defined.

End Claim8.

Section Claim9.

(** C9: when no image input is supplied, the run returns a result whose key
    analisi_immagine is null, and the outside events of the run are exactly
    the three search requests followed by the scoring request, which carries
    no image analysis: no file is read and no vision request is sent, so
    analyze_ethnic_image was not run. *)
Theorem no_image_no_assessment
  (w : env) (self : agent) (nome cognome : pystr)
  (image_path image_url image_base64 : option pystr) (t : list event) :
  supplied image_path = false ->
  supplied image_url = false ->
  supplied image_base64 = false ->
  let full_name := strip (nome ++ u " " ++ cognome) in
  exists r datas,
    analyze_person_jewish_identity w self nome cognome
      image_path image_url image_base64 t
    = (Val r,
       t ++ map (fun q => Chat (client_key self)
                            (Request (search_model self) (SearchPrompt q)
                                     1500 None))
                (search_queries full_name)
         ++ [Chat (client_key self)
               (Request (vision_model self)
                  (ScorePrompt
                     (join (u (String "010" (String "010" ""))) datas) None)
                  600 (Some (Dec 1 (-1))))])
    /\ field r "analisi_immagine" = Some JNull.
Proof.
  intros Hp Hu Hb full_name.
  destruct (analyze_person_run w self nome cognome image_path image_url
              image_base64 t) as [datas [ia [final [t2 [_ [I [_ R]]]]]]].
  rewrite Hp, Hu, Hb in I. cbn [orb] in I. destruct I as [-> ->].
  eexists _, datas. split.
  - rewrite R. unfold score_request. rewrite <- app_assoc. reflexivity.
  - reflexivity.
Qed.

Lemma no_image_no_assessment_witness :
  exists r,
    fst (analyze_person_jewish_identity (w_reply (lit "around 65")) a0
           (u "Jane") (u "Doe") None None (Some []) []) = Val r
    /\ field r "analisi_immagine" = Some JNull.
Proof.
  destruct (no_image_no_assessment (w_reply (lit "around 65")) a0
              (u "Jane") (u "Doe") None None (Some []) []
              eq_refl eq_refl eq_refl) as [r [datas [E F]]].
  exists r. split; [now rewrite E|exact F].
Defined.

End Claim9.

Section Claim10.

(** C10: every run returns a result, and its key timestamp holds the
    constant text 2025-09-22, whatever the inputs and the replies; no clock
    is read. *)
Theorem timestamp_is_constant
  (w : env) (self : agent) (nome cognome : pystr)
  (image_path image_url image_base64 : option pystr) (t : list event) :
  exists r t',
    analyze_person_jewish_identity w self nome cognome
      image_path image_url image_base64 t = (Val r, t')
    /\ field r "timestamp" = Some (JStr (u "2025-09-22")).
Proof.
  destruct (analyze_person_run w self nome cognome image_path image_url
              image_base64 t) as [datas [ia [final [t2 [_ [_ [_ R]]]]]]].
  eexists _, _. split; [exact R|reflexivity].
Qed.

End Claim10.

(** ** Worked runs *)

Section Runs.

(** The end-to-end scenario: Jane Doe, no image, a scoring reply that is the
    expected object.  The final assessment is that object and the image
    assessment is null. *)
Example jane_doe_run :
  let reply := dq "{'probabilita_percentuale': 30, 'categoria': 'bassa'}" in
  exists r t,
    analyze_person_jewish_identity (w_reply reply) a0 (u "Jane") (u "Doe")
      None None None [] = (Val r, t)
    /\ field r "persona" = Some (JStr (u "Jane Doe"))
    /\ field r "analisi_immagine" = Some JNull
    /\ field r "risultato_finale"
       = Some (JObj [(u "probabilita_percentuale", JInt 30);
                     (u "categoria", JStr (u "bassa"))])
    /\ List.length t = 4.
Proof. eexists _, _. vm_compute. repeat split; reflexivity. Qed.

(** A request with both names and no credential is answered 500. *)
Example missing_credential_is_500 :
  do_POST (w_nokey (lit "around 65"))
    (dq "{'firstName': 'Jane', 'lastName': 'Doe'}") []
  = (send_error 500 (u "OpenAI API key not configured"), []).
Proof. vm_compute. reflexivity. Qed.

(** The digits of a score need not be ASCII: the Arabic-Indic digits six and
    five are read as 65. *)
Example arabic_indic_score :
  let reply := lit "score " ++ [1638; 1637]%N in
  fst (analyze_ethnic_image (w_reply reply) a0 None None inline jane [])
  = Val (image_dict 65 "unstructured analysis" reply).
Proof. vm_compute. reflexivity. Qed.

(** A run of 4301 digits is more than [int] converts: the image score falls
    to 50 with the indicator of the error branch, and the scoring step
    returns its error object. *)
Example too_many_digits :
  let reply := repeat (chr "7") 4301 in
  fst (analyze_ethnic_image (w_reply reply) a0 None None inline jane [])
  = Val (image_dict 50 "analysis error" reply)
  /\ fst (calculate_jewish_probability
            (w_reply (reply ++ lit "%")) a0 [] None [])
     = Val (JObj [(u "errore", JStr (u "Error calculating score: error"))]).
Proof. vm_compute. split; reflexivity. Qed.

(** A first name that is a number too small for a float is zero, hence
    false: the request is answered 400. *)
Example tiny_float_name_is_400 :
  do_POST (w_reply (lit "around 65"))
    (dq "{'firstName': 1e-400, 'lastName': 'Doe'}") []
  = (send_error 400 (u "First name and last name are required"), []).
Proof. vm_compute. reflexivity. Qed.

(** A result that holds a lone surrogate cannot be encoded: the handler has
    already sent the status line 200 and then sends the 500 error; the
    command line prints the error and exits with status 1.  Both made their
    four calls. *)
Example lone_surrogate_result :
  let w := w_reply (lit "around 65") in
  let body := dq "{'firstName': '\ud800', 'lastName': 'Doe'}" in
  fst (do_POST w body [])
  = Head 200 :: send_error 500 (u "Analysis failed: error")
  /\ chats (snd (do_POST w body [])) = 4
  /\ fst (main w [u "agent.py"; [55296%N]; u "Doe"] [])
     = Completed (JObj [(u "error", JStr (u "error"))]) 1
  /\ chats (snd (main w [u "agent.py"; [55296%N]; u "Doe"] [])) = 4.
Proof. vm_compute. repeat split; reflexivity. Qed.

End Runs.

(** * Further properties of the code *)

(** ** The JSON candidate of a reply (agent.py lines 113 and 185) *)

Section Candidate.

Lemma upto_last_close_found (s : text) :
  In (chr "}") s -> exists p, upto_last_close s = Some p.
Proof.
  induction s as [|c r IH]; intros H; [contradiction|].
  cbn [upto_last_close].
  destruct (upto_last_close r) as [p|] eqn:E; [eauto|].
  destruct H as [H|H].
  - subst c. rewrite isc_refl. eexists. reflexivity.
  - apply IH in H as [p Hp]. discriminate.
Qed.

Lemma upto_last_close_split (s p : text) :
  upto_last_close s = Some p ->
  exists mid post,
    s = mid ++ chr "}" :: post /\ p = mid ++ [chr "}"] /\ ~ In (chr "}") post.
Proof.
  revert p. induction s as [|c r IH]; intros p; [discriminate|].
  cbn [upto_last_close].
  destruct (upto_last_close r) as [p'|] eqn:E.
  - intros [= <-]. destruct (IH _ eq_refl) as [mid [post [-> [-> N]]]].
    exists (c :: mid), post. auto.
  - destruct (isc_spec "}" c) as [<-|_]; [|discriminate].
    intros [= <-]. exists [], r. split; [reflexivity|]. split; [reflexivity|].
    intros K. apply upto_last_close_found in K as [p Hp]. congruence.
Qed.

Lemma brace_span_needs_close (s : text) :
  ~ In (chr "}") s -> brace_span s = None.
Proof.
  induction s as [|c r IH]; intros H; [reflexivity|].
  assert (Hr : ~ In (chr "}") r) by (intros K; apply H; now right).
  cbn [brace_span]. rewrite (upto_last_close_none r Hr), (IH Hr).
  now destruct (isc "{" c).
Qed.

Lemma brace_span_split (s x : text) :
  brace_span s = Some x ->
  exists pre mid post,
    s = pre ++ chr "{" :: mid ++ chr "}" :: post
    /\ ~ In (chr "{") pre /\ ~ In (chr "}") post
    /\ x = chr "{" :: mid ++ [chr "}"].
Proof.
  revert x. induction s as [|c r IH]; intros x; [discriminate|].
  cbn [brace_span]. destruct (isc_spec "{" c) as [<-|N].
  - destruct (upto_last_close r) as [p|] eqn:E.
    + intros [= <-].
      destruct (upto_last_close_split _ _ E) as [mid [post [-> [-> K]]]].
      exists [], mid, post. cbn. auto.
    + intros H. rewrite brace_span_needs_close in H; [discriminate|].
      intros K. apply upto_last_close_found in K as [p Hp]. congruence.
  - intros H. destruct (IH _ H) as [pre [mid [post [-> [P [Q ->]]]]]].
    exists (c :: pre), mid, post. split; [reflexivity|].
    split; [|auto]. intros [K|K]; [congruence|auto].
Qed.

Lemma brace_span_absent_iff (reply : text) :
  brace_span reply = None
  <-> ~ (exists a b c, reply = a ++ chr "{" :: b ++ chr "}" :: c).
Proof.
  split.
  - intros B [a [b [c E]]]. subst reply.
    induction a as [|x a IH]; cbn [app brace_span] in B.
    + rewrite isc_refl in B.
      destruct (upto_last_close_found (b ++ chr "}" :: c)) as [p Hp].
      { apply in_or_app. right. now left. }
      rewrite Hp in B. discriminate.
    + destruct (isc "{" x); [|auto].
      destruct (upto_last_close_found (a ++ chr "{" :: b ++ chr "}" :: c))
        as [p Hp].
      { apply in_or_app. right. right. apply in_or_app. right. now left. }
      rewrite Hp in B. discriminate.
  - intros H. destruct (brace_span reply) as [x|] eqn:B; [|reflexivity].
    exfalso. apply H.
    destruct (brace_span_split _ _ B) as [pre [mid [post [E _]]]]. eauto.
Qed.

(** X1: when the pattern of tier 1 finds a candidate in a reply, the
    candidate is the text from the first opening brace of the reply to its
    last closing brace: nothing before it holds an opening brace, nothing
    after it holds a closing brace, and no group is captured. *)
Theorem json_candidate_is_outermost (ud : unicode) (reply : text)
  (m : Re.mres) :
  Re.search ud Re.json_pat reply = Some m ->
  exists pre mid post,
    reply = pre ++ chr "{" :: mid ++ chr "}" :: post
    /\ ~ In (chr "{") pre /\ ~ In (chr "}") post
    /\ m = Re.MRes (chr "{" :: mid ++ [chr "}"]) [].
Proof.
  rewrite search_json_pat.
  destruct (brace_span reply) as [x|] eqn:B; [|discriminate].
  intros [= <-].
  destruct (brace_span_split _ _ B) as [pre [mid [post [E [P [Q ->]]]]]].
  exists pre, mid, post. auto.
Qed.

Lemma json_candidate_is_outermost_witness :
  exists pre mid post,
    lit "a {b} c {d} e" = pre ++ chr "{" :: mid ++ chr "}" :: post
    /\ ~ In (chr "{") pre /\ ~ In (chr "}") post
    /\ Re.MRes (lit "{b} c {d}") [] = Re.MRes (chr "{" :: mid ++ [chr "}"]) [].
Proof.
  apply (json_candidate_is_outermost sample_unicode (lit "a {b} c {d} e")
           (Re.MRes (lit "{b} c {d}") [])).
  vm_compute. reflexivity.
Defined.

(** X2: the pattern of tier 1 finds no candidate exactly when no opening
    brace of the reply is followed, anywhere later, by a closing brace.
    Then, and only then, analyze_ethnic_image and
    calculate_jewish_probability go to their branch without a candidate
    (the first run of digits, or the recovered probability, with the
    indicator "unstructured analysis"); when there is such a pair of braces
    both hand the candidate to the decoder, and what they return is the
    decoded value or a branch of the candidate, never the "unstructured
    analysis" branch of the code. *)
Theorem json_candidate_absent_iff (w : env) (reply : text) :
  let pair := exists a b c, reply = a ++ chr "{" :: b ++ chr "}" :: c in
  (Re.search (unicode_db w) Re.json_pat reply = None <-> ~ pair)
  /\ (~ pair ->
      image_reply w reply
      = match Re.search (unicode_db w) Re.int_pat reply with
        | Some score_match =>
            match py_int (unicode_db w) (max_str_digits w)
                    (Re.m_group score_match) with
            | Some score => Val (image_dict score "unstructured analysis" reply)
            | None => Val (image_dict 50 "analysis error" reply)
            end
        | None => Val (image_dict 50 "unstructured analysis" reply)
        end
      /\ score_reply w reply
         = match recover_probability w reply with
           | Some p =>
               Val (fallback p reply "unstructured analysis" (Dec 5 (-1)))
           | None => Exc World.ValueError
           end)
  /\ (pair ->
      exists m,
        Re.search (unicode_db w) Re.json_pat reply = Some m
        /\ image_reply w reply
           = match loads (max_str_digits w) (depth w) (Re.m_whole m) with
             | Ok v => Val v
             | Err Json.RecursionError => Exc World.RecursionError
             | Err _ => Val (image_dict 50 "analysis error" reply)
             end
        /\ score_reply w reply
           = match loads (max_str_digits w) (depth w) (Re.m_whole m) with
             | Ok parsed =>
                 match py_in (u "probabilita_percentuale") parsed with
                 | Val true => Val parsed
                 | Val false =>
                     match recover_probability w reply with
                     | Some p =>
                         Val (fallback p reply "fallback analysis" (Dec 5 (-1)))
                     | None => Exc World.ValueError
                     end
                 | Exc e => Exc e
                 end
             | Err Json.RecursionError => Exc World.RecursionError
             | Err _ =>
                 match recover_probability w reply with
                 | Some p =>
                     Val (fallback p reply "analysis error fallback"
                            (Dec 3 (-1)))
                 | None => Exc World.ValueError
                 end
             end).
Proof.
  intros pair.
  assert (I : Re.search (unicode_db w) Re.json_pat reply = None <-> ~ pair).
  { rewrite search_json_pat. split.
    - intros H. apply brace_span_absent_iff.
      destruct (brace_span reply); [discriminate|reflexivity].
    - intros H. apply brace_span_absent_iff in H. now rewrite H. }
  split; [exact I|]. split.
  - intros N. apply I in N. unfold image_reply, score_reply. rewrite N.
    split; [reflexivity|].
    destruct (recover_probability w reply); reflexivity.
  - intros P.
    destruct (Re.search (unicode_db w) Re.json_pat reply) as [m|] eqn:S.
    + exists m. split; [reflexivity|].
      unfold image_reply, score_reply. rewrite S. split.
      * destruct (loads _ _ _) as [v|[| |]]; reflexivity.
      * destruct (loads _ _ _) as [v|[| |]]; try reflexivity.
        destruct (py_in _ v) as [[|]|e]; try reflexivity.
        destruct (recover_probability w reply); reflexivity.
    + exfalso. exact (proj1 I eq_refl P).
Qed.

Lemma json_candidate_absent_iff_witness :
  score_reply (w_reply []) (lit "} about 78% {")
  = Val (fallback 78 (lit "} about 78% {") "unstructured analysis"
           (Dec 5 (-1))).
Proof.
  refine (proj2 (proj1 (proj2 (json_candidate_absent_iff (w_reply [])
                                 (lit "} about 78% {"))) _)).
  apply brace_span_absent_iff. vm_compute. reflexivity.
Defined.

End Candidate.

(** ** The numeric tiers (agent.py lines 118-119 and 194-199) *)

Section NumberLemmas.

Variable ud : unicode.

Let kend : text -> option Re.mres := fun _ => Some (Re.MRes [] []).
Let kpct : text -> option Re.mres :=
  Re.one (Re.in_cls ud (Re.Chr (chr "%"))) false kend.
Let knum : text -> option Re.mres :=
  Re.one (Re.is_digit ud) true (Re.star (Re.is_digit ud) true kend).

Lemma digit_run_app (ds post : text) :
  forallb (Re.is_digit ud) ds = true ->
  match post with [] => True | c :: _ => Re.is_digit ud c = false end ->
  digit_run ud (ds ++ post) = ds.
Proof.
  intros Hd Hp. induction ds as [|d ds' IH].
  - destruct post as [|c r]; [reflexivity|]. cbn [app digit_run].
    now rewrite Hp.
  - cbn in Hd. apply andb_prop in Hd as [H1 H2].
    cbn [app digit_run]. rewrite H1, (IH H2). reflexivity.
Qed.

Lemma knum_run (ds post : text) :
  ds <> [] -> forallb (Re.is_digit ud) ds = true ->
  match post with [] => True | c :: _ => Re.is_digit ud c = false end ->
  knum (ds ++ post) = Some (Re.MRes ds ds).
Proof.
  intros Hne Hd Hp. destruct ds as [|d ds']; [congruence|].
  cbn in Hd. apply andb_prop in Hd as [H1 H2].
  unfold knum, Re.one. cbn [app]. rewrite H1.
  fold kend. rewrite star_digit_end, (digit_run_app ds' post H2 Hp).
  reflexivity.
Qed.

Lemma search_int_skip (pre rest : text) :
  forallb (fun c => negb (Re.is_digit ud c)) pre = true ->
  Re.search ud Re.int_pat (pre ++ rest) = Re.search ud Re.int_pat rest.
Proof.
  intros H. induction pre as [|c pre' IH]; [reflexivity|].
  cbn in H. apply andb_prop in H as [H1 H2].
  apply negb_true_iff in H1.
  cbn [app Re.search Re.int_pat Re.match_here Re.a_cls Re.a_quant Re.a_group
       Re.one Re.in_cls]. rewrite H1. exact (IH H2).
Qed.

Lemma search_int_run (pre ds post : text) :
  forallb (fun c => negb (Re.is_digit ud c)) pre = true ->
  ds <> [] -> forallb (Re.is_digit ud) ds = true ->
  match post with [] => True | c :: _ => Re.is_digit ud c = false end ->
  Re.search ud Re.int_pat (pre ++ ds ++ post) = Some (Re.MRes ds ds).
Proof.
  intros Hpre Hne Hd Hp. rewrite (search_int_skip pre _ Hpre).
  destruct ds as [|d ds']; [congruence|].
  cbn [app Re.search].
  change (Re.match_here ud Re.int_pat (d :: ds' ++ post))
    with (knum ((d :: ds') ++ post)).
  now rewrite (knum_run (d :: ds') post Hne Hd Hp).
Qed.

Lemma star_digit_pct_absent (g : bool) (s : text) :
  ~ In (chr "%") s -> Re.star (Re.is_digit ud) g kpct s = None.
Proof.
  induction s as [|c r IH]; intros H; [reflexivity|].
  assert (Hr : ~ In (chr "%") r) by (intros K; apply H; now right).
  assert (Hk : kpct (c :: r) = None).
  { unfold kpct, Re.one. cbn [Re.in_cls].
    destruct (eqc_spec (chr "%") c) as [E|E]; [|reflexivity].
    exfalso. apply H. now left. }
  cbn [Re.star]. rewrite (IH Hr), Hk. now destruct (Re.is_digit ud c).
Qed.

Lemma search_percent_absent (s : text) :
  ~ In (chr "%") s -> Re.search ud Re.percent_pat s = None.
Proof.
  induction s as [|c r IH]; intros H; [reflexivity|].
  assert (Hr : ~ In (chr "%") r) by (intros K; apply H; now right).
  cbn [Re.search Re.percent_pat Re.match_here Re.a_cls Re.a_quant Re.a_group
       Re.one Re.in_cls].
  fold kend. fold kpct. change (Re.in_cls ud Re.Digit) with (Re.is_digit ud).
  rewrite (star_digit_pct_absent true r Hr).
  destruct (Re.is_digit ud c); exact (IH Hr).
Qed.

(** A word matched letter by letter, whatever the case. *)
Lemma match_word (l wd : text) (p : Re.regex) (rest : text) :
  List.length wd = List.length l -> starts_with ud l wd = true ->
  Re.match_here ud (map (fun c => Re.Atom (Re.ChrI c) Re.One false) l ++ p)
    (wd ++ rest)
  = option_map (fun m => Re.MRes (wd ++ Re.m_whole m) (Re.m_group m))
      (Re.match_here ud p rest).
Proof.
  revert wd. induction l as [|x l' IH]; intros wd Hl H.
  - destruct wd; [|discriminate]. cbn [map app].
    destruct (Re.match_here ud p rest) as [[a b]|]; reflexivity.
  - destruct wd as [|c wd']; [discriminate|].
    cbn [starts_with] in H. apply andb_prop in H as [Hc Hw].
    injection Hl as Hl.
    cbn [map app Re.match_here Re.a_cls Re.a_quant Re.a_group Re.one
         Re.in_cls].
    rewrite Hc, (IH wd' Hl Hw).
    destruct (Re.match_here ud p rest) as [[a b]|]; reflexivity.
Qed.

(** Where the word does not start, the pattern does not match. *)
Lemma match_word_none (l : text) (p : Re.regex) (s : text) :
  starts_with ud l s = false ->
  Re.match_here ud (map (fun c => Re.Atom (Re.ChrI c) Re.One false) l ++ p) s
  = None.
Proof.
  revert s. induction l as [|x l' IH]; intros s H; [discriminate|].
  cbn [map app Re.match_here Re.a_cls Re.a_quant Re.a_group].
  unfold Re.one. destruct s as [|c s']; [reflexivity|].
  cbn [starts_with] in H. cbn [Re.in_cls].
  destruct (letter_eq ud x c); [|reflexivity].
  cbn [andb] in H. now rewrite (IH s' H).
Qed.

Lemma star_gap (gap ds post : text) :
  forallb (fun c => negb (Re.is_digit ud c)) gap = true ->
  ds <> [] -> forallb (Re.is_digit ud) ds = true ->
  match post with [] => True | c :: _ => Re.is_digit ud c = false end ->
  Re.star (Re.in_cls ud Re.NotDigit) false knum (gap ++ ds ++ post)
  = Some (Re.MRes (gap ++ ds) ds).
Proof.
  intros Hg Hne Hd Hp. induction gap as [|c gap' IH].
  - destruct ds as [|d ds'] eqn:E; [congruence|]. rewrite <- E in *.
    assert (D : Re.is_digit ud d = true).
    { subst ds. cbn in Hd. now apply andb_prop in Hd as [H1 _]. }
    rewrite E at 1. cbn [app Re.star Re.in_cls]. rewrite D. cbn [negb].
    change (d :: ds' ++ post) with ((d :: ds') ++ post). rewrite <- E.
    exact (knum_run ds post Hne Hd Hp).
  - cbn in Hg. apply andb_prop in Hg as [H1 H2].
    cbn [app Re.star Re.in_cls]. rewrite H1, (IH H2). reflexivity.
Qed.

Lemma search_word_skip (pre rest : text) :
  no_occurrence ud (lit "probability") pre rest = true ->
  Re.search ud Re.probability_pat (pre ++ rest)
  = Re.search ud Re.probability_pat rest.
Proof.
  intros H. induction pre as [|c pre' IH]; [reflexivity|].
  cbn [no_occurrence] in H. apply andb_prop in H as [H1 H2].
  apply negb_true_iff in H1.
  change ((c :: pre') ++ rest) with (c :: pre' ++ rest) in *.
  cbn [Re.search]. rewrite (IH H2).
  unfold Re.probability_pat at 1. now rewrite (match_word_none _ _ _ H1).
Qed.

Lemma search_word_run (pre word gap ds post : text) :
  List.length word = 11 ->
  starts_with ud (lit "probability") word = true ->
  no_occurrence ud (lit "probability") pre (word ++ gap ++ ds ++ post) = true ->
  forallb (fun c => negb (Re.is_digit ud c)) gap = true ->
  ds <> [] -> forallb (Re.is_digit ud) ds = true ->
  match post with [] => True | c :: _ => Re.is_digit ud c = false end ->
  Re.search ud Re.probability_pat (pre ++ word ++ gap ++ ds ++ post)
  = Some (Re.MRes (word ++ gap ++ ds) ds).
Proof.
  intros Hl Hw Hpre Hg Hne Hd Hp.
  rewrite (search_word_skip pre _ Hpre).
  assert (M : Re.match_here ud Re.probability_pat (word ++ gap ++ ds ++ post)
              = Some (Re.MRes (word ++ gap ++ ds) ds)).
  { unfold Re.probability_pat. rewrite match_word by assumption.
    change (Re.match_here ud
              [Re.Atom Re.NotDigit Re.Star false; Re.Atom Re.Digit Re.Plus true])
      with (Re.star (Re.in_cls ud Re.NotDigit) false knum).
    rewrite (star_gap gap ds post Hg Hne Hd Hp). reflexivity. }
  destruct (word ++ gap ++ ds ++ post) as [|c r] eqn:E;
    cbn [Re.search]; rewrite M; reflexivity.
Qed.

End NumberLemmas.

Section Numbers.

(** X3: the integer tier of analyze_ethnic_image reads the whole first run
    of decimal digits of the reply (Unicode decimal digits, not only 0 to 9)
    and nothing around it: whatever stands before the run (a minus sign, a
    currency sign, words) and after it (a decimal point, a percent sign,
    more numbers) is ignored; the score is [int] of the run when the run is
    not longer than the interpreter converts. *)
Theorem first_digit_run_is_the_score (w : env) (pre ds post : text) :
  let ud := unicode_db w in
  let reply := pre ++ ds ++ post in
  forallb (fun c => negb (Re.is_digit ud c)) pre = true ->
  ds <> [] -> forallb (Re.is_digit ud) ds = true ->
  match post with [] => True | c :: _ => Re.is_digit ud c = false end ->
  Re.search ud Re.int_pat reply = Some (Re.MRes ds ds)
  /\ (brace_span reply = None ->
      too_long (max_str_digits w) (List.length ds) = false ->
      exists n,
        py_int ud (max_str_digits w) ds = Some n
        /\ image_reply w reply
           = Val (image_dict n "unstructured analysis" reply)).
Proof.
  intros ud reply Hpre Hne Hd Hp.
  pose proof (search_int_run ud pre ds post Hpre Hne Hd Hp) as S.
  split; [exact S|].
  intros B L. destruct (py_int_some ud _ _ Hd Hne L) as [n N].
  exists n. split; [exact N|].
  unfold image_reply. fold ud. fold reply in S.
  rewrite search_json_pat, B. cbn [option_map].
  rewrite S. cbn [Re.m_group]. rewrite N. reflexivity.
Qed.

Lemma first_digit_run_is_the_score_witness :
  let reply := lit "score: -" ++ [1638; 1637]%N ++ lit ".5 of 100" in
  Re.search sample_unicode Re.int_pat reply
  = Some (Re.MRes [1638; 1637]%N [1638; 1637]%N)
  /\ exists n,
      py_int sample_unicode 4300 [1638; 1637]%N = Some n
      /\ image_reply (w_reply []) reply
         = Val (image_dict n "unstructured analysis" reply).
Proof.
  destruct (first_digit_run_is_the_score (w_reply []) (lit "score: -")
              [1638; 1637]%N (lit ".5 of 100")) as [S I].
  - reflexivity.
  - discriminate.
  - reflexivity.
  - reflexivity.
  - split; [exact S|]. apply I; reflexivity.
Defined.

(** X4: when the reply holds no percent sign, the probability recovered by
    the fallbacks of calculate_jewish_probability is [int] of the first run
    of decimal digits that follows the first occurrence of the word
    probability, in any letter case, whatever text without digits stands
    between the word and the run; the text before that occurrence may hold
    anything, the letter p included. *)
Theorem probability_word_recovery (w : env) (pre word gap ds post : text) :
  let ud := unicode_db w in
  let reply := pre ++ word ++ gap ++ ds ++ post in
  ~ In (chr "%") reply ->
  List.length word = 11 ->
  starts_with ud (lit "probability") word = true ->
  no_occurrence ud (lit "probability") pre (word ++ gap ++ ds ++ post) = true ->
  forallb (fun c => negb (Re.is_digit ud c)) gap = true ->
  ds <> [] -> forallb (Re.is_digit ud) ds = true ->
  match post with [] => True | c :: _ => Re.is_digit ud c = false end ->
  recover_probability w reply = py_int ud (max_str_digits w) ds.
Proof.
  intros ud reply Hpct Hl Hw Hpre Hg Hne Hd Hp. unfold recover_probability.
  fold ud. rewrite (search_percent_absent ud _ Hpct).
  unfold reply.
  rewrite (search_word_run ud pre word gap ds post Hl Hw Hpre Hg Hne Hd Hp).
  reflexivity.
Qed.

Lemma probability_word_recovery_witness :
  recover_probability (w_reply [])
    (lit "The perceived PROBABILITY is about 65.") = Some 65%Z.
Proof.
  refine (probability_word_recovery (w_reply []) (lit "The perceived ")
            (lit "PROBABILITY") (lit " is about ") (lit "65") (lit ".")
            _ _ _ _ _ _ _ _).
  - not_in.
  - reflexivity.
  - reflexivity.
  - reflexivity.
  - reflexivity.
  - discriminate.
  - reflexivity.
  - reflexivity.
Defined.

End Numbers.

(** ** Whole runs of the orchestrator (agent.py lines 244-281) *)

Section WholeRuns.

Variable w : env.
Variable self : agent.

Lemma score_reply_dict reply v :
  score_reply w reply = Val v -> exists m, v = JObj m.
Proof.
  rewrite score_reply_cases. cbv zeta.
  assert (F : forall ind c,
             match recover_probability w reply with
             | Some p => Val (fallback p reply ind c)
             | None => Exc World.ValueError
             end = Val v -> exists m, v = JObj m).
  { intros ind c. destruct (recover_probability w reply); [|discriminate].
    intros [= <-]. unfold fallback. eauto. }
  destruct (brace_span reply) as [span|] eqn:B; [|apply F].
  destruct (brace_span_head _ _ B) as [r ->].
  destruct (loads _ _ (chr "{" :: r)) as [x|[| |]] eqn:L;
    [|apply F|apply F|discriminate].
  destruct (loads_brace_dict _ _ _ _ L) as [m ->]. cbn [py_in].
  destruct (dict_get m _); [|apply F]. intros [= <-]. eauto.
Qed.

Lemma calculate_dict (search_data : pystr) (image_analysis : option json)
  (t : list event) :
  exists m,
    calculate_jewish_probability w self search_data image_analysis t =
    (Val (JObj m),
     t ++ [Chat (client_key self)
             (score_request self search_data image_analysis)]).
Proof.
  rewrite calculate_by_call.
  destruct (remote w t (client_key self) _) as [c|e].
  - destruct (score_reply w c) as [v|e] eqn:E.
    + destruct (score_reply_dict _ _ E) as [m ->]. eauto.
    + unfold errore. eauto.
  - unfold errore. eauto.
Qed.

Lemma analyze_image_events (image_path image_url image_base64 : option pystr)
  (person_name : pystr) (t : list event) :
  exists m,
    analyze_ethnic_image w self image_path image_url image_base64
      person_name t
    = (Val (JObj m),
       t ++ image_events w self image_path image_url image_base64
              person_name t).
Proof.
  destruct (analyze_image_run w self image_path image_url image_base64
              person_name t) as [v [t' [E [m ->]]]].
  exists m. rewrite E. f_equal.
  apply (f_equal snd) in E. cbn [snd] in E. rewrite <- E. clear E.
  unfold analyze_ethnic_image, image_events.
  destruct (supplied image_path); [|destruct (supplied image_base64);
                                    [|destruct (supplied image_url)]].
  - unfold catch, bind, encode_image, read_file, chat, lift, ret.
    destruct (read_b64 w t (get image_path)) as [b|e]; cbn [fst snd].
    + destruct (remote w _ _ _) as [c|e]; [destruct (image_reply _ c)|];
        cbn [snd]; rewrite <- app_assoc; reflexivity.
    + reflexivity.
  - unfold catch, bind, chat, lift, ret.
    destruct (remote w _ _ _) as [c|e]; [destruct (image_reply _ c)|];
      reflexivity.
  - unfold catch, bind, chat, lift, ret.
    destruct (remote w _ _ _) as [c|e]; [destruct (image_reply _ c)|];
      reflexivity.
  - unfold catch, ret. cbn [snd]. now rewrite app_nil_r.
Qed.

(** X5: whatever the endpoints reply and whatever fails, what
    analyze_ethnic_image and calculate_jewish_probability return is a dict
    (never None, a list, a number or a string), as their annotations say:
    the text handed to the decoder starts with a brace, and a decoded text
    that starts with a brace is a dict. *)
Theorem results_are_dicts
  (image_path image_url image_base64 : option pystr)
  (person_name search_data : pystr) (image_analysis : option json)
  (t : list event) :
  (exists m, fst (analyze_ethnic_image w self image_path image_url
                    image_base64 person_name t) = Val (JObj m))
  /\ (exists m, fst (calculate_jewish_probability w self search_data
                       image_analysis t) = Val (JObj m)).
Proof.
  split.
  - destruct (analyze_image_events image_path image_url image_base64
                person_name t) as [m E]. exists m. now rewrite E.
  - destruct (calculate_dict search_data image_analysis t) as [m E].
    exists m. now rewrite E.
Qed.

Lemma run_shape (nome cognome : pystr)
  (image_path image_url image_base64 : option pystr) (t : list event) :
  let name := full_name nome cognome in
  let t1 := t ++ map (search_event self) (search_queries name) in
  let image := supplied image_path || supplied image_url
               || supplied image_base64 in
  let t2 := t1 ++ (if image
                   then image_events w self image_path image_url image_base64
                          name t1
                   else []) in
  exists datas ia fm,
    search_all w self (search_queries name) t = (Val datas, t1)
    /\ (if image
        then exists m,
            ia = Some (JObj m)
            /\ analyze_ethnic_image w self image_path image_url image_base64
                 name t1 = (Val (JObj m), t2)
        else ia = None)
    /\ calculate_jewish_probability w self (join blank_line datas) ia t2
       = (Val (JObj fm),
          t2 ++ [Chat (client_key self)
                   (Request (vision_model self)
                      (ScorePrompt (join blank_line datas) (shown_analysis ia))
                      600 (Some (Dec 1 (-1))))])
    /\ analyze_person_jewish_identity w self nome cognome
         image_path image_url image_base64 t
       = (Val (JObj [(u "persona", JStr name);
                     (u "timestamp", JStr (u "2025-09-22"));
                     (u "dati_ricerca",
                      JStr (dati_ricerca (join blank_line datas)));
                     (u "analisi_immagine",
                      match ia with Some v => v | None => JNull end);
                     (u "risultato_finale", JObj fm)]),
          t2 ++ [Chat (client_key self)
                   (Request (vision_model self)
                      (ScorePrompt (join blank_line datas) (shown_analysis ia))
                      600 (Some (Dec 1 (-1))))]).
Proof.
  intros name t1 image t2.
  destruct (analyze_person_run w self nome cognome image_path image_url
              image_base64 t) as [datas [ia [final [t2' [S [I [C R]]]]]]].
  fold (full_name nome cognome) in S, I, C, R. fold name in S, I, C, R.
  fold blank_line in C, R. fold (search_event self) in S, I, C, R.
  fold t1 in S, I. fold image in I.
  assert (T : t2' = t2 /\ (if image
                           then exists m, ia = Some (JObj m)
                                /\ analyze_ethnic_image w self image_path
                                     image_url image_base64 name t1
                                   = (Val (JObj m), t2)
                           else ia = None)).
  { subst t2. destruct image.
    - destruct I as [v [A ->]].
      destruct (analyze_image_events image_path image_url image_base64
                  name t1) as [m E].
      rewrite E in A. injection A as <- <-. eauto.
    - destruct I as [-> ->]. now rewrite app_nil_r. }
  destruct T as [-> I'].
  destruct (calculate_dict (join blank_line datas) ia t2) as [fm F].
  rewrite F in C. injection C as <-.
  assert (Q : score_request self (join blank_line datas) ia
              = Request (vision_model self)
                  (ScorePrompt (join blank_line datas) (shown_analysis ia))
                  600 (Some (Dec 1 (-1)))).
  { unfold score_request. f_equal. f_equal.
    destruct image.
    - destruct I' as [m [-> _]]. now destruct m.
    - now subst ia. }
  rewrite Q in F, R.
  exists datas, ia, fm. auto.
Qed.

End WholeRuns.

Section RunProperties.

Lemma chats_app (a b : list event) : chats (a ++ b) = chats a + chats b.
Proof. unfold chats. now rewrite filter_app, length_app. Qed.

Lemma chats_searches (self : agent) (queries : list pystr) :
  chats (map (search_event self) queries) = List.length queries.
Proof.
  unfold chats. induction queries as [|q r IH]; [reflexivity|].
  cbn. now rewrite IH.
Qed.

Lemma chats_image (w : env) (self : agent)
  (image_path image_url image_base64 : option pystr)
  (person_name : pystr) (t : list event) :
  chats (image_events w self image_path image_url image_base64 person_name t)
  <= 1
  /\ List.length (image_events w self image_path image_url image_base64
                    person_name t) <= 2.
Proof.
  unfold image_events.
  destruct (supplied image_path); [|destruct (supplied image_base64);
                                    [|destruct (supplied image_url)]];
    try (cbn; lia).
  destruct (read_b64 w t (get image_path)); cbn; lia.
Qed.

(** X6: a run of analyze_person_jewish_identity that returns a result made
    its outside calls in one fixed order, whatever they answered and
    whichever failed: the three searches, then the events of the image
    analysis when an image is supplied (at most a file read and one vision
    request), then the scoring request.  So it called the hosted models
    four times without an image and four or five times with one, and never
    repeated a call. *)
Theorem run_call_order (w : env) (self : agent) (nome cognome : pystr)
  (image_path image_url image_base64 : option pystr) (t : list event)
  (r : json) :
  fst (analyze_person_jewish_identity w self nome cognome
         image_path image_url image_base64 t) = Val r ->
  let name := full_name nome cognome in
  let t1 := t ++ map (search_event self) (search_queries name) in
  let image := supplied image_path || supplied image_url
               || supplied image_base64 in
  let img := if image
             then image_events w self image_path image_url image_base64
                    name t1
             else [] in
  exists search_data shown,
    snd (analyze_person_jewish_identity w self nome cognome
           image_path image_url image_base64 t)
    = t ++ map (search_event self) (search_queries name) ++ img
        ++ [Chat (client_key self)
              (Request (vision_model self) (ScorePrompt search_data shown)
                       600 (Some (Dec 1 (-1))))]
    /\ 4 <= chats (map (search_event self) (search_queries name) ++ img) + 1
       <= 5
    /\ (image = false ->
        chats (map (search_event self) (search_queries name) ++ img) + 1 = 4).
Proof.
  intros _ name t1 image img.
  destruct (run_shape w self nome cognome image_path image_url image_base64 t)
    as [datas [ia [fm [_ [_ [_ R]]]]]].
  fold name in R. fold t1 in R. fold image in R. fold img in R.
  exists (join blank_line datas), (shown_analysis ia).
  split; [|split].
  - rewrite R. cbn [snd]. subst t1. now rewrite <- !app_assoc.
  - rewrite chats_app, chats_searches. cbn [search_queries List.length].
    subst img. destruct image; [|cbn; lia].
    pose proof (chats_image w self image_path image_url image_base64 name t1).
    lia.
  - intros E. rewrite chats_app, chats_searches. subst img. rewrite E.
    reflexivity.
Qed.

Lemma run_call_order_witness :
  exists search_data shown,
    snd (analyze_person_jewish_identity (w_reply (lit "around 65")) a0
           (u "Jane") (u "Doe") None None None [])
    = [] ++ map (search_event a0) (search_queries (u "Jane Doe")) ++ []
        ++ [Chat (client_key a0)
              (Request (vision_model a0) (ScorePrompt search_data shown)
                       600 (Some (Dec 1 (-1))))].
Proof.
  destruct (run_call_order (w_reply (lit "around 65")) a0 (u "Jane") (u "Doe")
              None None None []
              (JObj [(u "persona", JStr (u "Jane Doe"));
                     (u "timestamp", JStr (u "2025-09-22"));
                     (u "dati_ricerca",
                      JStr (u "around 65" ++ blank_line ++ u "around 65"
                            ++ blank_line ++ u "around 65"));
                     (u "analisi_immagine", JNull);
                     (u "risultato_finale",
                      fallback 50 (lit "around 65") "unstructured analysis"
                        (Dec 5 (-1)))]))
    as [sd [shown [E _]]].
  - vm_compute. reflexivity.
  - exists sd, shown. exact E.
Defined.

(** The three searches of a run, one after the other. *)
Lemma search_all_three (w : env) (self : agent) (name : pystr)
  (t : list event) :
  let ask q := Request (search_model self) (SearchPrompt q) 1500 None in
  let q1 := name ++ u " ethnic origin Jewish heritage" in
  let q2 := name ++ u " family background ancestry" in
  let q3 := name ++ u " religious affiliation cultural background" in
  let d1 := search_text w (remote w t (client_key self) (ask q1)) in
  let d2 := search_text w (remote w (t ++ [search_event self q1])
                             (client_key self) (ask q2)) in
  let d3 := search_text w (remote w (t ++ [search_event self q1;
                                           search_event self q2])
                             (client_key self) (ask q3)) in
  search_all w self (search_queries name) t
  = (Val [d1; d2; d3],
     t ++ [search_event self q1; search_event self q2; search_event self q3]).
Proof.
  intros ask q1 q2 q3 d1 d2 d3.
  unfold search_queries. fold q1 q2 q3. cbn [search_all].
  unfold bind at 1. rewrite web_search_run.
  unfold bind at 1. unfold bind at 1. rewrite web_search_run.
  unfold bind at 1. unfold bind at 1. rewrite web_search_run.
  unfold bind, ret. subst d1 d2 d3. unfold search_text, search_event, ask.
  rewrite <- !app_assoc. reflexivity.
Qed.

(** X7: the three searches are independent of one another: each is made
    whatever the earlier ones returned, a search that fails contributes the
    text "Error during web search: " followed by its message in place of a
    reply, and the search data is the three texts in order, joined by a
    blank line. *)
Theorem searches_are_independent (w : env) (self : agent)
  (nome cognome : pystr) (t : list event) :
  let name := full_name nome cognome in
  let ask q := Request (search_model self) (SearchPrompt q) 1500 None in
  let q1 := name ++ u " ethnic origin Jewish heritage" in
  let q2 := name ++ u " family background ancestry" in
  let q3 := name ++ u " religious affiliation cultural background" in
  let d1 := search_text w (remote w t (client_key self) (ask q1)) in
  let d2 := search_text w (remote w (t ++ [search_event self q1])
                             (client_key self) (ask q2)) in
  let d3 := search_text w (remote w (t ++ [search_event self q1;
                                           search_event self q2])
                             (client_key self) (ask q3)) in
  search_all w self (search_queries name) t
  = (Val [d1; d2; d3],
     t ++ [search_event self q1; search_event self q2; search_event self q3])
  /\ forall image_path image_url image_base64,
      exists r,
        fst (analyze_person_jewish_identity w self nome cognome
               image_path image_url image_base64 t) = Val r
        /\ field r "dati_ricerca"
           = Some (JStr (dati_ricerca
                           (d1 ++ blank_line ++ d2 ++ blank_line ++ d3))).
Proof.
  intros name ask q1 q2 q3 d1 d2 d3.
  assert (S : search_all w self (search_queries name) t
              = (Val [d1; d2; d3],
                 t ++ [search_event self q1; search_event self q2;
                       search_event self q3])).
  { exact (search_all_three w self name t). }
  split; [exact S|].
  intros image_path image_url image_base64.
  destruct (run_shape w self nome cognome image_path image_url image_base64 t)
    as [datas [ia [fm [S' [_ [_ R]]]]]].
  fold name in S', R. rewrite S in S'. injection S' as <-.
  eexists. rewrite R. split; reflexivity.
Qed.

(** X8: when an image is supplied, whatever analyze_ethnic_image returned is
    stored in the result under analisi_immagine and is also what the scoring
    prompt shows as the image analysis, error objects included; only an
    empty dict is shown to the scoring model as "No image provided" while
    still being stored in the result. *)
Theorem image_analysis_is_forwarded (w : env) (self : agent)
  (nome cognome : pystr)
  (image_path image_url image_base64 : option pystr) (t : list event) :
  supplied image_path || supplied image_url || supplied image_base64 = true ->
  exists r t' m search_data,
    analyze_person_jewish_identity w self nome cognome
      image_path image_url image_base64 t = (Val r, t')
    /\ fst (analyze_ethnic_image w self image_path image_url image_base64
              (full_name nome cognome)
              (t ++ map (search_event self)
                        (search_queries (full_name nome cognome))))
       = Val (JObj m)
    /\ field r "analisi_immagine" = Some (JObj m)
    /\ last t' (ReadFile [])
       = Chat (client_key self)
              (Request (vision_model self)
                 (ScorePrompt search_data
                    match m with
                    | [] => None
                    | _ :: _ => Some (JObj m)
                    end)
                 600 (Some (Dec 1 (-1)))).
Proof.
  intros H.
  destruct (run_shape w self nome cognome image_path image_url image_base64 t)
    as [datas [ia [fm [_ [I [_ R]]]]]].
  rewrite H in I, R. destruct I as [m [-> A]].
  eexists _, _, m, (join blank_line datas).
  split; [exact R|]. split; [now rewrite A|]. split; [reflexivity|].
  rewrite last_last. now destruct m.
Qed.

Lemma image_analysis_is_forwarded_witness :
  exists r t' m search_data,
    analyze_person_jewish_identity (w_fail "timeout") a0 (u "Jane") (u "Doe")
      None None inline [] = (Val r, t')
    /\ fst (analyze_ethnic_image (w_fail "timeout") a0 None None inline
              (full_name (u "Jane") (u "Doe"))
              ([] ++ map (search_event a0)
                         (search_queries (full_name (u "Jane") (u "Doe")))))
       = Val (JObj m)
    /\ field r "analisi_immagine" = Some (JObj m)
    /\ last t' (ReadFile [])
       = Chat (client_key a0)
              (Request (vision_model a0)
                 (ScorePrompt search_data
                    match m with
                    | [] => None
                    | _ :: _ => Some (JObj m)
                    end)
                 600 (Some (Dec 1 (-1)))).
Proof.
  apply (image_analysis_is_forwarded (w_fail "timeout") a0 (u "Jane") (u "Doe")
           None None inline []).
  reflexivity.
Defined.

End RunProperties.

(** ** The full name (agent.py line 248) *)

Section FullName.

#[local] Arguments py_isspace : simpl never.

Lemma lstrip_split (s : pystr) :
  exists ws, s = ws ++ lstrip s /\ all_space ws = true.
Proof.
  induction s as [|c r [ws [E A]]].
  - exists []. auto.
  - cbn [lstrip]. destruct (py_isspace c) eqn:C.
    + exists (c :: ws). split; [now rewrite E at 1|].
      unfold all_space in *. cbn [forallb]. now rewrite C, A.
    + exists []. auto.
Qed.

Lemma lstrip_head (s : pystr) :
  match lstrip s with
  | [] => True
  | c :: _ => py_isspace c = false
  end.
Proof.
  induction s as [|c r IH]; [exact I|].
  cbn [lstrip]. destruct (py_isspace c) eqn:C; [exact IH|exact C].
Qed.

Lemma lstrip_fixed (s : pystr) :
  match s with [] => True | c :: _ => py_isspace c = false end ->
  lstrip s = s.
Proof. destruct s as [|c r]; [reflexivity|]. cbn [lstrip]. now intros ->. Qed.

Lemma lstrip_all_space (s : pystr) : all_space s = true -> lstrip s = [].
Proof.
  induction s as [|c r IH]; [reflexivity|]. unfold all_space in *.
  cbn [forallb lstrip].
  intros H. apply andb_prop in H as [C R]. rewrite C. exact (IH R).
Qed.

Lemma all_space_app (a b : pystr) :
  all_space (a ++ b) = all_space a && all_space b.
Proof. apply forallb_app. Qed.

Lemma all_space_rev (a : pystr) : all_space (rev a) = all_space a.
Proof.
  induction a as [|c r IH]; [reflexivity|].
  cbn [rev]. rewrite all_space_app, IH. unfold all_space. cbn [forallb].
  now rewrite andb_true_r, andb_comm.
Qed.

Lemma strip_trimmed (s : pystr) : trimmed (strip s).
Proof.
  unfold strip.
  destruct (lstrip_split (rev (lstrip s))) as [ws [E A]].
  pose proof (lstrip_head (rev (lstrip s))) as Hb.
  pose proof (lstrip_head s) as Ha.
  destruct (lstrip (rev (lstrip s))) as [|c b'] eqn:B; [exact I|].
  apply (f_equal (@rev N)) in E. rewrite rev_involutive, rev_app_distr in E.
  set (x := rev (c :: b')) in *.
  assert (L : forall d, last x d = c).
  { intros d. subst x. cbn [rev]. apply last_last. }
  unfold trimmed. destruct x as [|h x'] eqn:X.
  - exact I.
  - split.
    + rewrite E in Ha. exact Ha.
    + now rewrite L.
Qed.

Lemma strip_empty_iff (s : pystr) : strip s = [] <-> all_space s = true.
Proof.
  unfold strip. split.
  - intros H. apply (f_equal (@rev N)) in H. rewrite rev_involutive in H.
    cbn in H.
    destruct (lstrip_split (rev (lstrip s))) as [ws [E A]].
    rewrite H, app_nil_r in E.
    assert (Ar : all_space (lstrip s) = true).
    { rewrite <- all_space_rev, E. exact A. }
    pose proof (lstrip_head s) as Hh.
    destruct (lstrip_split s) as [ws' [E' A']].
    destruct (lstrip s) as [|c r].
    + rewrite app_nil_r in E'. now subst s.
    + unfold all_space in Ar. cbn [forallb] in Ar. rewrite Hh in Ar.
      discriminate.
  - intros H. now rewrite (lstrip_all_space s H).
Qed.

Lemma strip_fixed (s : pystr) : trimmed s -> strip s = s.
Proof.
  unfold trimmed, strip. destruct s as [|c r]; [reflexivity|].
  intros [Hc Hl]. rewrite (lstrip_fixed (c :: r) Hc).
  rewrite lstrip_fixed; [apply rev_involutive|].
  destruct (rev (c :: r)) as [|d x] eqn:E; [exact I|].
  apply (f_equal (@rev N)) in E. rewrite rev_involutive in E.
  cbn [rev] in E. rewrite E, last_last in Hl. exact Hl.
Qed.

(** X9: the name a run works with (the key persona, and the text the three
    search queries are built on) never begins or ends with white space; it is empty exactly
    when both names hold nothing but white space; and it is first name,
    one space, last name, unchanged, when the first name does not begin and
    the last name does not end with white space. *)
Theorem persona_is_trimmed (w : env) (self : agent) (nome cognome : pystr)
  (image_path image_url image_base64 : option pystr) (t : list event) :
  exists r persona,
    fst (analyze_person_jewish_identity w self nome cognome
           image_path image_url image_base64 t) = Val r
    /\ field r "persona" = Some (JStr persona)
    /\ firstn 3 (skipn (List.length t)
                   (snd (analyze_person_jewish_identity w self nome cognome
                           image_path image_url image_base64 t)))
       = map (search_event self) (search_queries persona)
    /\ trimmed persona
    /\ (persona = [] <-> all_space nome = true /\ all_space cognome = true)
    /\ (trimmed (nome ++ u " " ++ cognome) ->
        persona = nome ++ u " " ++ cognome).
Proof.
  destruct (run_shape w self nome cognome image_path image_url image_base64 t)
    as [datas [ia [fm [_ [_ [_ R]]]]]].
  eexists _, (full_name nome cognome). rewrite R. cbn [fst snd].
  split; [reflexivity|]. split; [reflexivity|].
  split; [|split; [|split]].
  - rewrite <- !app_assoc, skipn_app, skipn_all, Nat.sub_diag.
    cbn [app skipn]. reflexivity.
  - apply strip_trimmed.
  - unfold full_name. rewrite strip_empty_iff, !all_space_app.
    change (all_space (u " ")) with true. cbn [andb].
    apply andb_true_iff.
  - apply strip_fixed.
Qed.

Lemma persona_is_trimmed_witness :
  exists r,
    fst (analyze_person_jewish_identity (w_reply (lit "around 65")) a0
           (u "Jane") (u "Doe") None None None []) = Val r
    /\ field r "persona" = Some (JStr (u "Jane Doe")).
Proof.
  destruct (persona_is_trimmed (w_reply (lit "around 65")) a0
              (u "Jane") (u "Doe") None None None [])
    as [r [persona [R [F [_ [_ [_ H]]]]]]].
  exists r. split; [exact R|]. rewrite F, H; [reflexivity|].
  vm_compute. split; reflexivity.
Defined.

End FullName.

(** ** What a run adds to the events, and what it returns under failure *)

Section RunFacts.

Lemma image_events_chats_only (w : env) (self : agent)
  (image_url image_base64 : option pystr) (image_path : option pystr)
  (person_name : pystr) (t : list event) :
  supplied image_path = false ->
  forallb is_chat
    (image_events w self image_path image_url image_base64 person_name t)
  = true.
Proof.
  intros H. unfold image_events. rewrite H.
  destruct (supplied image_base64); [reflexivity|].
  destruct (supplied image_url); reflexivity.
Qed.

Lemma searches_chats_only (self : agent) (queries : list pystr) :
  forallb is_chat (map (search_event self) queries) = true.
Proof. induction queries as [|q r IH]; [reflexivity|exact IH]. Qed.

Lemma run_added (w : env) (self : agent) (nome cognome : pystr)
  (image_path image_url image_base64 : option pystr) (t : list event) :
  exists r added,
    analyze_person_jewish_identity w self nome cognome
      image_path image_url image_base64 t = (Val r, t ++ added)
    /\ 4 <= chats added <= 5
    /\ (supplied image_path = false -> forallb is_chat added = true)
    /\ (supplied image_path || supplied image_url || supplied image_base64
        = false ->
        chats added = 4 /\ field r "analisi_immagine" = Some JNull).
Proof.
  destruct (run_shape w self nome cognome image_path image_url image_base64 t)
    as [datas [ia [fm [_ [I [_ R]]]]]].
  set (name := full_name nome cognome) in *.
  set (t1 := t ++ map (search_event self) (search_queries name)) in *.
  set (image := supplied image_path || supplied image_url
                || supplied image_base64) in *.
  set (img := if image
              then image_events w self image_path image_url image_base64
                     name t1
              else []) in *.
  set (score := Chat (client_key self) _) in R.
  eexists _, (map (search_event self) (search_queries name) ++ img ++ [score]).
  split; [rewrite R; subst t1; now rewrite <- !app_assoc|].
  assert (B : chats img <= 1).
  { subst img. destruct image; [|cbn; lia].
    apply (chats_image w self image_path image_url image_base64 name t1). }
  rewrite !chats_app, chats_searches. cbn [search_queries List.length].
  change (chats [score]) with 1.
  split; [lia|]. split.
  - intros P. rewrite !forallb_app, searches_chats_only. cbn [andb].
    rewrite andb_true_r. subst img. destruct image; [|reflexivity].
    now apply image_events_chats_only.
  - intros E. subst img. rewrite E in *. subst ia. split; reflexivity.
Qed.

(** X10: when every call to the hosted models raises, whatever each one
    raises, a run still returns a complete result: the final assessment is
    the error object of the scoring step, the image assessment is an error
    object of the image step (or null without an image), and the search
    excerpt is built from the three error texts; nothing is raised to the
    caller. *)
Theorem total_failure_still_returns (w : env) (self : agent)
  (nome cognome : pystr)
  (image_path image_url image_base64 : option pystr) (t : list event) :
  always_fails w ->
  let marker e := u "Error during web search: " ++ str_exn w e in
  exists r e1 e2 e3 es,
    fst (analyze_person_jewish_identity w self nome cognome
           image_path image_url image_base64 t) = Val r
    /\ field r "risultato_finale"
       = Some (JObj [(u "errore",
                      JStr (u "Error calculating score: " ++ str_exn w es))])
    /\ (if supplied image_path || supplied image_url || supplied image_base64
        then exists ei,
            field r "analisi_immagine"
            = Some (JObj [(u "errore",
                           JStr (u "Error in image analysis: "
                                 ++ str_exn w ei))])
        else field r "analisi_immagine" = Some JNull)
    /\ field r "dati_ricerca"
       = Some (JStr (dati_ricerca
                       (marker e1 ++ blank_line ++ marker e2 ++ blank_line
                        ++ marker e3))).
Proof.
  intros Hf marker.
  destruct (run_shape w self nome cognome image_path image_url image_base64 t)
    as [datas [ia [fm [S [I [C R]]]]]].
  pose proof (search_all_three w self (full_name nome cognome) t) as S'.
  cbv zeta in S'. rewrite S in S'. injection S' as ->.
  set (name := full_name nome cognome) in *.
  destruct (Hf t (client_key self)
              (Request (search_model self)
                 (SearchPrompt (name ++ u " ethnic origin Jewish heritage"))
                 1500 None)) as [e1 E1].
  destruct (Hf (t ++ [search_event self
                        (name ++ u " ethnic origin Jewish heritage")])
              (client_key self)
              (Request (search_model self)
                 (SearchPrompt (name ++ u " family background ancestry"))
                 1500 None)) as [e2 E2].
  destruct (Hf (t ++ [search_event self
                        (name ++ u " ethnic origin Jewish heritage");
                      search_event self
                        (name ++ u " family background ancestry")])
              (client_key self)
              (Request (search_model self)
                 (SearchPrompt
                    (name ++ u " religious affiliation cultural background"))
                 1500 None)) as [e3 E3].
  rewrite E1, E2, E3 in R, C. cbn [search_text] in R, C.
  rewrite calculate_by_call in C.
  match type of C with
  | context [remote w ?a ?b ?c] => destruct (Hf a b c) as [es Es]
  end.
  rewrite Es in C. unfold errore in C. injection C as <-.
  exists (JObj [(u "persona", JStr name);
                (u "timestamp", JStr (u "2025-09-22"));
                (u "dati_ricerca",
                 JStr (dati_ricerca
                         (join blank_line [marker e1; marker e2; marker e3])));
                (u "analisi_immagine",
                 match ia with Some v => v | None => JNull end);
                (u "risultato_finale",
                 JObj [(u "errore",
                        JStr (u "Error calculating score: "
                              ++ str_exn w es))])]),
    e1, e2, e3, es.
  split; [now rewrite R|]. split; [reflexivity|]. split; [|reflexivity].
  destruct (supplied image_path || supplied image_url || supplied image_base64)
    eqn:G; [|now subst ia].
  destruct I as [m [-> A]].
  cbn [field dict_get]. change (dict_get _ (u "analisi_immagine"))
    with (Some (JObj m)).
  destruct (vision_call w self image_path image_url image_base64 name
              (t ++ map (search_event self) (search_queries name)))
    as [[t' req]|] eqn:V.
  - rewrite (analyze_image_by_call w self _ _ _ _ _ _ _ V) in A.
    destruct (Hf t' (client_key self) req) as [ei Ei].
    rewrite Ei in A. unfold errore in A. injection A as <- _.
    exists ei. reflexivity.
  - rewrite (analyze_image_no_call w self _ _ _ _ _ V) in A.
    unfold vision_call in V.
    destruct (supplied image_path) eqn:P.
    + destruct (read_b64 w _ (get image_path)) as [b|e]; [discriminate|].
      unfold errore in A. injection A as <- _. exists e. reflexivity.
    + destruct (supplied image_base64); [discriminate|].
      destruct (supplied image_url); discriminate.
Qed.

Lemma total_failure_still_returns_witness :
  exists r es,
    fst (analyze_person_jewish_identity (w_fail "timeout") a0
           (u "Jane") (u "Doe") None None inline []) = Val r
    /\ field r "risultato_finale"
       = Some (JObj [(u "errore",
                      JStr (u "Error calculating score: "
                            ++ str_exn (w_fail "timeout") es))]).
Proof.
  destruct (total_failure_still_returns (w_fail "timeout") a0
              (u "Jane") (u "Doe") None None inline []
              (fun _ _ _ => ex_intro _ (Raised (u "timeout")) eq_refl))
    as [r [e1 [e2 [e3 [es [R [F _]]]]]]].
  exists r, es. split; [exact R|exact F].
Defined.

End RunFacts.

(** ** The HTTP handler and the command line, end to end *)

Section Adapters.

Lemma do_POST_accepted (w : env) (post_data : text)
  (d : list (pystr * json)) (t : list event) :
  accepted w post_data d ->
  exists r added,
    analyze_person_jewish_identity w (new_agent (get (getenv_key w)))
      (py_format w (value_of d "firstName" (JStr [])))
      (py_format w (value_of d "lastName" (JStr [])))
      None None (image_param w d) t = (Val r, t ++ added)
    /\ do_POST w post_data t = (answer w r, t ++ added)
    /\ 4 <= chats added <= 5
    /\ forallb is_chat added = true
    /\ (supplied (image_param w d) = false ->
        chats added = 4 /\ field r "analisi_immagine" = Some JNull).
Proof.
  intros [L [F [N K]]].
  destruct (run_added w (new_agent (get (getenv_key w)))
              (py_format w (value_of d "firstName" (JStr [])))
              (py_format w (value_of d "lastName" (JStr [])))
              None None (image_param w d) t) as [r [added [R [B [C Z]]]]].
  exists r, added. split; [exact R|]. split.
  - unfold do_POST. rewrite L.
    unfold of_decode, py_get, lift, bind, ret.
    fold (value_of d "firstName" (JStr [])).
    fold (value_of d "lastName" (JStr [])).
    fold (value_of d "imageBase64" JNull).
    rewrite F, N, K. cbn [negb orb].
    fold (image_param w d). rewrite R. unfold answer.
    destruct (utf8_encodable r); reflexivity.
  - split; [exact B|]. split; [apply C; reflexivity|].
    intros E. apply Z. rewrite E. reflexivity.
Qed.

Lemma do_POST_cases (w : env) (post_data : text) (t : list event) :
  (exists d, accepted w post_data d)
  \/ (exists msg, do_POST w post_data t = (send_error 400 msg, t))
  \/ (exists msg, do_POST w post_data t = (send_error 500 msg, t)).
Proof.
  unfold accepted, do_POST.
  destruct (loads (max_str_digits w) (depth w) post_data) as [v|[| |]] eqn:L;
    [|right; right; eexists; reflexivity ..].
  destruct v as [| | | | | | | |d];
    try (right; right; eexists; reflexivity).
  unfold of_decode, py_get, lift, bind, ret.
  fold (value_of d "firstName" (JStr [])).
  fold (value_of d "lastName" (JStr [])).
  destruct (truthy (value_of d "firstName" (JStr []))) eqn:F;
    [|right; left; eexists; reflexivity].
  destruct (truthy (value_of d "lastName" (JStr []))) eqn:N;
    [|right; left; eexists; reflexivity].
  destruct (supplied (getenv_key w)) eqn:K;
    [|right; right; eexists; reflexivity].
  left. exists d. auto.
Qed.

Lemma accepted_unique (w : env) (post_data : text)
  (d d' : list (pystr * json)) :
  accepted w post_data d -> accepted w post_data d' -> d = d'.
Proof. intros [L _] [L' _]. congruence. Qed.

Lemma answer_head (w : env) (r : json) : hd (Head 0) (answer w r) = Head 200.
Proof. unfold answer. now destruct (utf8_encodable r). Qed.

(** X11: whatever the body of a POST, the handler reads no local file and
    calls the hosted models at most five times; an answer whose status line
    is 200 cost at least four calls; and a request that is not accepted
    (the body does not decode to an object with both names true, or the
    credential is not set) is answered 400 or 500 with an error object and
    costs nothing: no event is added. *)
Theorem handler_cost (w : env) (post_data : text) (t : list event) :
  exists added,
    snd (do_POST w post_data t) = t ++ added
    /\ forallb is_chat added = true
    /\ chats added <= 5
    /\ (hd (Head 0) (fst (do_POST w post_data t)) = Head 200 ->
        4 <= chats added)
    /\ ((forall d, ~ accepted w post_data d) ->
        added = []
        /\ exists code msg,
            fst (do_POST w post_data t) = send_error code msg
            /\ (code = 400 \/ code = 500)).
Proof.
  destruct (do_POST_cases w post_data t) as [[d A]|[[msg E]|[msg E]]].
  - destruct (do_POST_accepted w post_data d t A)
      as [r [added [_ [E [B [C _]]]]]].
    exists added. rewrite E. cbn [fst snd].
    split; [reflexivity|]. split; [exact C|]. split; [lia|].
    split; [intros _; lia|]. intros N. exfalso. exact (N d A).
  - exists []. rewrite E, app_nil_r. cbn [fst snd].
    split; [reflexivity|]. split; [reflexivity|]. split; [cbn; lia|].
    split; [discriminate|]. intros _. split; [reflexivity|].
    exists 400, msg. auto.
  - exists []. rewrite E, app_nil_r. cbn [fst snd].
    split; [reflexivity|]. split; [reflexivity|]. split; [cbn; lia|].
    split; [discriminate|]. intros _. split; [reflexivity|].
    exists 500, msg. auto.
Qed.

Lemma handler_cost_witness :
  exists code msg,
    fst (do_POST (w_reply (lit "around 65")) (lit "[]") [])
    = send_error code msg
    /\ (code = 400 \/ code = 500).
Proof.
  destruct (handler_cost (w_reply (lit "around 65")) (lit "[]") [])
    as [added [_ [_ [_ [_ H]]]]].
  apply H. intros d [L _]. vm_compute in L. discriminate.
Defined.

(** X12: the handler sends the status line 200 only for a request it
    accepts: the body decodes to an object whose firstName and lastName are
    true values, and the credential is set.  With both names present and no
    credential, the answer is 500 "OpenAI API key not configured" and
    nothing is called. *)
Theorem handler_ok_needs_acceptance (w : env) (post_data : text)
  (t : list event) :
  (hd (Head 0) (fst (do_POST w post_data t)) = Head 200 ->
   exists d, accepted w post_data d)
  /\ (forall d,
        loads (max_str_digits w) (depth w) post_data = Ok (JObj d) ->
        truthy (value_of d "firstName" (JStr [])) = true ->
        truthy (value_of d "lastName" (JStr [])) = true ->
        supplied (getenv_key w) = false ->
        do_POST w post_data t
        = ([Head 500;
            Payload (JObj [(u "error",
                            JStr (u "OpenAI API key not configured"))])],
           t)).
Proof.
  split.
  - intros H.
    destruct (do_POST_cases w post_data t) as [A|[[msg E]|[msg E]]];
      [exact A| |]; rewrite E in H; cbn in H; discriminate.
  - intros d L F N K. unfold do_POST. rewrite L.
    unfold of_decode, py_get, lift, bind, ret.
    fold (value_of d "firstName" (JStr [])).
    fold (value_of d "lastName" (JStr [])).
    rewrite F, N, K. reflexivity.
Qed.

Lemma handler_ok_needs_acceptance_witness :
  do_POST (w_nokey (lit "around 65"))
    (dq "{'firstName': 'Jane', 'lastName': 'Doe'}") []
  = ([Head 500;
      Payload (JObj [(u "error", JStr (u "OpenAI API key not configured"))])],
     []).
Proof.
  refine (proj2 (handler_ok_needs_acceptance (w_nokey (lit "around 65"))
                   (dq "{'firstName': 'Jane', 'lastName': 'Doe'}") [])
            [(u "firstName", JStr (u "Jane")); (u "lastName", JStr (u "Doe"))]
            _ _ _ _).
  - vm_compute. reflexivity.
  - reflexivity.
  - reflexivity.
  - reflexivity.
Defined.

Lemma truthy_supplied (w : env) (v : json) :
  truthy v = true -> supplied (Some (py_format w v)) = true.
Proof.
  intros T. destruct v; cbn [py_format];
    try (destruct (format_other w _); reflexivity).
  destruct s; [discriminate|reflexivity].
Qed.

(** X13: when the handler answers a request with 200 and a result, the
    image was analysed exactly when imageBase64 is a true value (a
    non-empty string, or any other value Python takes for true).  Without
    one the run made four calls and the image assessment is null; with one
    the fourth call is the vision request, which carries the text of the
    value as a JPEG data URL together with the full name, five calls were
    made, and the image assessment is a dict. *)
Theorem handler_image_rule (w : env) (post_data : text)
  (d : list (pystr * json)) (t : list event) (r : json) :
  accepted w post_data d ->
  fst (do_POST w post_data t) = [Head 200; Payload r] ->
  let self := new_agent (get (getenv_key w)) in
  let name := full_name (py_format w (value_of d "firstName" (JStr [])))
                        (py_format w (value_of d "lastName" (JStr []))) in
  let image := value_of d "imageBase64" JNull in
  exists added,
    snd (do_POST w post_data t) = t ++ added
    /\ (truthy image = false ->
        chats added = 4 /\ field r "analisi_immagine" = Some JNull)
    /\ (truthy image = true ->
        chats added = 5
        /\ nth 3 added (ReadFile [])
           = Chat (client_key self)
                  (vision_request self name
                     (u "data:image/jpeg;base64," ++ py_format w image))
        /\ exists m, field r "analisi_immagine" = Some (JObj m)).
Proof.
  intros A H self name image.
  destruct (do_POST_accepted w post_data d t A)
    as [r0 [added [R [E [_ [_ Z]]]]]].
  rewrite E in H. cbn [fst] in H.
  assert (r0 = r) as ->.
  { unfold answer in H. destruct (utf8_encodable r0); [|discriminate].
    now injection H. }
  exists added. split; [now rewrite E|]. split.
  - intros F. apply Z. unfold image_param. fold image. now rewrite F.
  - intros T.
    assert (P : image_param w d = Some (py_format w image)).
    { unfold image_param. fold image. now rewrite T. }
    pose proof (truthy_supplied w image T) as Q.
    rewrite P in R.
    destruct (run_shape w self
                (py_format w (value_of d "firstName" (JStr [])))
                (py_format w (value_of d "lastName" (JStr [])))
                None None (Some (py_format w image)) t)
      as [datas [ia [fm [_ [I [_ R']]]]]].
    fold self in R. fold name in I, R'.
    unfold image_events in R'.
    change (supplied None) with false in I, R'. cbn [orb] in I, R'.
    rewrite Q in I, R'. cbv iota in R'. cbn [get] in R'.
    rewrite R' in R. injection R as <- T'.
    rewrite <- !app_assoc in T'. apply app_inv_head in T'. subst added.
    destruct I as [m [-> _]].
    split; [reflexivity|]. split; [reflexivity|]. exists m. reflexivity.
Qed.

Lemma handler_image_rule_witness :
  let w := w_reply (lit "around 65") in
  let body := dq "{'firstName': 'Jane', 'lastName': 'Doe', 'imageBase64': 7}" in
  exists r added,
    fst (do_POST w body []) = [Head 200; Payload r]
    /\ snd (do_POST w body []) = [] ++ added
    /\ chats added = 5
    /\ nth 3 added (ReadFile [])
       = Chat (u "sk-test")
              (vision_request a0 (u "Jane Doe")
                 (u "data:image/jpeg;base64,?")).
Proof.
  intros w body.
  pose (r := match fst (do_POST w body []) with
             | [_; Payload r] => r
             | _ => JNull
             end).
  assert (H : fst (do_POST w body []) = [Head 200; Payload r])
    by (vm_compute; reflexivity).
  destruct (handler_image_rule w body
              [(u "firstName", JStr (u "Jane")); (u "lastName", JStr (u "Doe"));
               (u "imageBase64", JInt 7)] [] r)
    as [added [S [_ T]]].
  - split; [vm_compute; reflexivity|]. split; [reflexivity|].
    split; reflexivity.
  - exact H.
  - exists r, added. split; [exact H|]. split; [exact S|].
    destruct (T eq_refl) as [T1 [T2 _]]. split; [exact T1|exact T2].
Defined.






End Adapters.

(** ** Further edge behaviour of the three steps *)

Section Edges.

(** X16: end to end, when the scoring endpoint answers with the expected
    object inside prose that has no opening brace before it and no closing
    brace after it, the final assessment of the run is that object exactly,
    whatever the searches and the image analysis returned. *)
Theorem end_to_end_final_assessment (w : env) (self : agent)
  (nome cognome : pystr) (image_path image_url image_base64 : option pystr)
  (pre mid post : text) (v : json) (t : list event) :
  scoring_replies_with w (pre ++ chr "{" :: mid ++ chr "}" :: post) ->
  ~ In (chr "{") pre -> ~ In (chr "}") post ->
  loads (max_str_digits w) (depth w) (chr "{" :: mid ++ [chr "}"]) = Ok v ->
  py_in (u "probabilita_percentuale") v = Val true ->
  exists r,
    fst (analyze_person_jewish_identity w self nome cognome
           image_path image_url image_base64 t) = Val r
    /\ field r "risultato_finale" = Some v.
Proof.
  intros Hr Hpre Hpost L K.
  destruct (run_shape w self nome cognome image_path image_url image_base64 t)
    as [datas [ia [fm [_ [_ [C R]]]]]].
  eexists. rewrite R. cbn [fst]. split; [reflexivity|].
  cbn [field]. change (dict_get _ (u "risultato_finale"))
    with (Some (JObj fm)). f_equal.
  revert C.
  unfold calculate_jewish_probability, catch, bind, chat, lift, ret,
    score_request.
  rewrite (Hr _ _ (Request _ (ScorePrompt _ _) _ _) _ _ eq_refl).
  rewrite score_reply_cases. cbv zeta.
  rewrite (brace_span_app pre mid post Hpre Hpost), L, K.
  intros [= <-]. reflexivity.
Qed.

Lemma end_to_end_final_assessment_witness :
  exists r,
    fst (analyze_person_jewish_identity
           (w_stub (lit "stub text")
              (dq "Here: {'probabilita_percentuale': 30, 'categoria': 'bassa'}."))
           a0 (u "Jane") (u "Doe") None None None []) = Val r
    /\ field r "risultato_finale"
       = Some (JObj [(u "probabilita_percentuale", JInt 30);
                     (u "categoria", JStr (u "bassa"))]).
Proof.
  refine (end_to_end_final_assessment
            (w_stub (lit "stub text")
               (dq "Here: {'probabilita_percentuale': 30, 'categoria': 'bassa'}."))
            a0 (u "Jane") (u "Doe") None None None
            (lit "Here: ")
            (dq "'probabilita_percentuale': 30, 'categoria': 'bassa'")
            (lit ".") _ [] _ _ _ _ _).
  - intros t key r sd ia E. cbn. now rewrite E.
  - not_in.
  - not_in.
  - vm_compute. reflexivity.
  - reflexivity.
Defined.

(** X17: the scoring request carries the whole search text, however long,
    while the result carries only its excerpt under dati_ricerca (503
    characters at most): the cut to 500 characters affects what the caller
    sees, not what the scoring model sees. *)
Theorem scoring_sees_full_text (w : env) (self : agent)
  (nome cognome : pystr) (image_path image_url image_base64 : option pystr)
  (t : list event) :
  exists r t' datas t1 shown,
    analyze_person_jewish_identity w self nome cognome
      image_path image_url image_base64 t = (Val r, t')
    /\ search_all w self (search_queries (full_name nome cognome)) t
       = (Val datas, t1)
    /\ last t' (ReadFile [])
       = Chat (client_key self)
              (Request (vision_model self)
                 (ScorePrompt (join blank_line datas) shown) 600
                 (Some (Dec 1 (-1))))
    /\ field r "dati_ricerca"
       = Some (JStr (dati_ricerca (join blank_line datas)))
    /\ List.length (dati_ricerca (join blank_line datas)) <= 503.
Proof.
  destruct (run_shape w self nome cognome image_path image_url image_base64 t)
    as [datas [ia [fm [S [_ [_ R]]]]]].
  eexists _, _, datas, _, (shown_analysis ia).
  split; [exact R|]. split; [exact S|]. split; [apply last_last|].
  split; [reflexivity|].
  unfold dati_ricerca.
  destruct (Nat.ltb_spec 500 (List.length (join blank_line datas))); [|lia].
  rewrite length_app, firstn_length_le by lia. cbn. lia.
Qed.

(** X18: a local path takes the place of every other image source even when
    it cannot be read: the failure of the read is returned as the error
    object, no vision request is sent, and inline data or a URL supplied
    alongside are not tried. *)
Theorem unreadable_path_is_final (w : env) (self : agent)
  (image_path image_url image_base64 : option pystr) (person_name : pystr)
  (e : exn) (t : list event) :
  supplied image_path = true ->
  read_b64 w t (get image_path) = Exc e ->
  analyze_ethnic_image w self image_path image_url image_base64 person_name t
  = (Val (JObj [(u "errore",
                 JStr (u "Error in image analysis: " ++ str_exn w e))]),
     t ++ [ReadFile (get image_path)]).
Proof.
  intros S E. unfold analyze_ethnic_image. rewrite S.
  unfold catch, bind, encode_image, read_file, ret. rewrite E. reflexivity.
Qed.

Lemma unreadable_path_is_final_witness :
  analyze_ethnic_image (w_stub (lit "stub") (lit "stub")) a0
    (Some (u "photo.jpg")) None inline jane []
  = (Val (JObj [(u "errore",
                 JStr (u "Error in image analysis: No such file or directory"))]),
     [ReadFile (u "photo.jpg")]).
Proof.
  refine (unreadable_path_is_final (w_stub (lit "stub") (lit "stub")) a0
            (Some (u "photo.jpg")) None inline jane
            (Raised (u "No such file or directory")) [] _ _).
  - reflexivity.
  - reflexivity.
Defined.

(** X19: a reply whose brace span is nested more deeply than the interpreter
    allows is not a parse fallback: the RecursionError is not among the
    exceptions of the inner handlers, so each of the two functions, on such
    a reply to the request it sent, returns its error object (no score, no
    probability, no confidence). *)
Theorem nesting_overflow_is_an_error_object (w : env) (self : agent)
  (image_path image_url image_base64 : option pystr)
  (person_name search_data : pystr) (image_analysis : option json)
  (reply span : text) (t : list event) :
  brace_span reply = Some span ->
  loads (max_str_digits w) (depth w) span = Err Json.RecursionError ->
  (forall t' req,
      vision_call w self image_path image_url image_base64 person_name t
      = Some (t', req) ->
      remote w t' (client_key self) req = Val reply ->
      fst (analyze_ethnic_image w self image_path image_url image_base64
             person_name t)
      = Val (JObj [(u "errore",
                    JStr (u "Error in image analysis: "
                          ++ str_exn w World.RecursionError))]))
  /\ (remote w t (client_key self)
        (score_request self search_data image_analysis) = Val reply ->
      fst (calculate_jewish_probability w self search_data image_analysis t)
      = Val (JObj [(u "errore",
                    JStr (u "Error calculating score: "
                          ++ str_exn w World.RecursionError))])).
Proof.
  intros B L. split.
  - intros t' req Hc Hr.
    rewrite (analyze_image_by_call w self _ _ _ _ _ _ _ Hc), Hr.
    rewrite image_reply_cases, B, L. reflexivity.
  - intros Hr. rewrite calculate_by_call, Hr.
    rewrite score_reply_cases. cbv zeta. rewrite B, L. reflexivity.
Qed.

Lemma nesting_overflow_is_an_error_object_witness :
  let reply := dq "{'a': " ++ nested 1000 ++ lit "}" in
  fst (calculate_jewish_probability (w_reply reply) a0 [] None [])
  = Val (JObj [(u "errore", JStr (u "Error calculating score: error"))]).
Proof.
  refine (proj2 (nesting_overflow_is_an_error_object
                   (w_reply (dq "{'a': " ++ nested 1000 ++ lit "}")) a0
                   None None inline jane [] None
                   (dq "{'a': " ++ nested 1000 ++ lit "}")
                   (dq "{'a': " ++ nested 1000 ++ lit "}") [] _ _) _).
  - vm_compute. reflexivity.
  - vm_compute. reflexivity.
  - reflexivity.
Defined.

End Edges.
